(** * Book catalogue service (cmd/main.go): model and verified properties

    A shallow embedding of the data-access functions and of the JSON API
    handlers of [cmd/main.go].  The MongoDB collection is an explicit state
    (the documents in natural order); the driver calls are functions on that
    state, and the handlers are state-passing functions from the bound
    request to a response and a new state.

    The store is taken to be reachable: a driver call returns its result, or
    [ErrNoDocuments] when [FindOne] matches nothing.  The handlers keep their
    branches for other driver errors.  Identifiers made by
    [primitive.NewObjectID] are taken to be new, so the unique index on [_id]
    is not part of the model. *)

From stdpp Require Import gmap strings list fin_maps sorting.
From Stdlib Require Import NArith Ascii.

Local Open Scope string_scope.
Local Open Scope N_scope.
Local Open Scope list_scope.

(** ** Data model *)

(** [primitive.ObjectID] is a 12-byte value; it is kept as the 96-bit number
    it denotes.  [NilObjectID] is the zero value. *)
Definition ObjectID : Type := N.
Definition NilObjectID : ObjectID := 0.
Definition IsZero (o : ObjectID) : bool := bool_decide (o = NilObjectID).

(** [type BookStore struct].  The bson field names are the lower-cased Go
    names ([id], [bookname], ...) except [MongoID], stored as [_id]; the json
    names are [mongo_id], [id], [title], [author], [edition], [pages],
    [year]. *)
Record BookStore : Type := mkBook {
  MongoID : ObjectID;
  ID : string;
  BookName : string;
  BookAuthor : string;
  BookEdition : string;
  BookPages : string;
  BookYear : string
}.

Global Instance BookStore_eq_dec : EqDecision BookStore.
Proof. solve_decision. Defined.

(** The assignment [book.MongoID = oid]. *)
Definition with_MongoID (oid : ObjectID) (book : BookStore) : BookStore :=
  {| MongoID := oid; ID := ID book; BookName := BookName book;
     BookAuthor := BookAuthor book; BookEdition := BookEdition book;
     BookPages := BookPages book; BookYear := BookYear book |}.

(** Values of Go type [interface{}] that occur in this program are decoded
    JSON values or Go strings; they are represented by the JSON value they
    denote.  A [float64] is kept as its IEEE-754 bit pattern, an object as
    its members in the order they are written. *)
#[warnings="-register-all"] Inductive json : Type :=
| JNull
| JBool (b : bool)
| JNumber (bits : N)
| JString (s : string)
| JArray (elems : list json)
| JObject (members : list (string * json)).

(** A Go slice is [nil] or a sequence; [append] on [nil] allocates. *)
Definition slice (A : Type) : Type := option (list A).
Definition nil_slice {A : Type} : slice A := None.
Definition append {A : Type} (s : slice A) (x : A) : slice A :=
  match s with
  | None => Some [x]
  | Some l => Some (l ++ [x])
  end.
Definition len {A : Type} (s : slice A) : nat :=
  match s with
  | None => 0%nat
  | Some l => length l
  end.
Definition elems_of {A : Type} (s : slice A) : list A :=
  match s with
  | None => []
  | Some l => l
  end.

(** ** The document store *)

(** The state the program runs against: the documents of the collection in
    natural order, and the generator behind [primitive.NewObjectID]. *)
Record World : Type := mkWorld {
  coll : list BookStore;
  oidCounter : N
}.

(** [primitive.NewObjectID()]: a fresh, non-zero identifier. *)
Definition NewObjectID (w : World) : ObjectID * World :=
  let o := N.succ (oidCounter w) in
  (o, {| coll := coll w; oidCounter := o |}).

(** Errors of the driver. *)
Inductive error : Type :=
| ErrNoDocuments
| ErrDriver (msg : string).

Inductive result (A : Type) : Type :=
| Ok (a : A)
| Err (e : error).
Arguments Ok {A} a.
Arguments Err {A} e.

(** The three filter documents the program builds. *)
Inductive filter : Type :=
| FilterAll                      (* bson.D{{}} *)
| FilterID (id : string)         (* bson.M{"id": id} *)
| FilterBook (book : BookStore). (* a BookStore value; _id is omitempty *)

Definition matches (f : filter) (d : BookStore) : bool :=
  match f with
  | FilterAll => true
  | FilterID id => bool_decide (ID d = id)
  | FilterBook b =>
      (IsZero (MongoID b) || bool_decide (MongoID d = MongoID b))
      && bool_decide (ID d = ID b)
      && bool_decide (BookName d = BookName b)
      && bool_decide (BookAuthor d = BookAuthor b)
      && bool_decide (BookEdition d = BookEdition b)
      && bool_decide (BookPages d = BookPages b)
      && bool_decide (BookYear d = BookYear b)
  end.

(** [coll.Find] followed by [cursor.All]: every matching document. *)
Definition Find (f : filter) (w : World) : result (list BookStore) :=
  Ok (List.filter (matches f) (coll w)).

(** [coll.FindOne(...).Decode]: the first matching document. *)
Definition FindOne (f : filter) (w : World) : result BookStore :=
  match List.find (matches f) (coll w) with
  | Some d => Ok d
  | None => Err ErrNoDocuments
  end.

(** [coll.InsertOne]: the driver fills in a missing [_id]; the document goes
    to the end of the collection.  The result is [InsertedID]. *)
Definition InsertOne (d : BookStore) (w : World) : result ObjectID * World :=
  let '(d, w) :=
    if IsZero (MongoID d) then
      let '(o, w) := NewObjectID w in (with_MongoID o d, w)
    else (d, w) in
  (Ok (MongoID d), {| coll := coll w ++ [d]; oidCounter := oidCounter w |}).

(** The [$set] document of an update: bson field name to new value.  The
    handler only ever stores Go strings in it. *)
Definition set_field (u : gmap string string) (name : string) (old : string)
  : string :=
  default old (u !! name).

Definition apply_set (u : gmap string string) (d : BookStore) : BookStore :=
  {| MongoID := MongoID d;
     ID := ID d;
     BookName := set_field u "bookname" (BookName d);
     BookAuthor := set_field u "bookauthor" (BookAuthor d);
     BookEdition := set_field u "bookedition" (BookEdition d);
     BookPages := set_field u "bookpages" (BookPages d);
     BookYear := set_field u "bookyear" (BookYear d) |}.

Record UpdateResult : Type := mkUpdateResult {
  MatchedCount : N;
  ModifiedCount : N
}.

(** Replace the first document that satisfies [p]. *)
Fixpoint update_first (p : BookStore → bool) (g : BookStore → BookStore)
  (l : list BookStore) : option (list BookStore) :=
  match l with
  | [] => None
  | d :: l' =>
      if p d then Some (g d :: l')
      else (d ::.) <$> update_first p g l'
  end.

(** [coll.UpdateOne(filter, {"$set": u})]. *)
Definition UpdateOne (f : filter) (u : gmap string string) (w : World)
  : result UpdateResult * World :=
  match update_first (matches f) (apply_set u) (coll w) with
  | Some l' =>
      (Ok {| MatchedCount := 1;
             ModifiedCount := if bool_decide (l' = coll w) then 0 else 1 |},
       {| coll := l'; oidCounter := oidCounter w |})
  | None => (Ok {| MatchedCount := 0; ModifiedCount := 0 |}, w)
  end.

(** Remove the first document that satisfies [p]. *)
Fixpoint delete_first (p : BookStore → bool) (l : list BookStore)
  : option (list BookStore) :=
  match l with
  | [] => None
  | d :: l' =>
      if p d then Some l'
      else (d ::.) <$> delete_first p l'
  end.

(** [coll.DeleteOne(filter)]; the result is [DeletedCount]. *)
Definition DeleteOne (f : filter) (w : World) : result N * World :=
  match delete_first (matches f) (coll w) with
  | Some l' => (Ok 1, {| coll := l'; oidCounter := oidCounter w |})
  | None => (Ok 0, w)
  end.

(** ** Responses and JSON encoding *)

Definition StatusOK : N := 200.
Definition StatusCreated : N := 201.
Definition StatusBadRequest : N := 400.
Definition StatusNotFound : N := 404.
Definition StatusConflict : N := 409.
Definition StatusInternalServerError : N := 500.

Record Response : Type := mkResponse {
  status : N;
  body : option json
}.

(** [c.JSON(code, v)] writes the encoding of [v]; [c.NoContent(code)] writes
    no body. *)
Definition c_JSON (code : N) (v : json) : Response :=
  {| status := code; body := Some v |}.
Definition c_NoContent (code : N) : Response :=
  {| status := code; body := None |}.

(** [map[string]string{"error": msg}]. *)
Definition error_map (msg : string) : json :=
  JObject [("error", JString msg)].

(** [ObjectID.Hex]: 24 lower-case hexadecimal digits. *)
Definition hex_digit (n : N) : ascii :=
  default "0"%char (String.get (N.to_nat n) "0123456789abcdef").

Fixpoint hex_digits (k : nat) (n : N) (acc : string) : string :=
  match k with
  | O => acc
  | S k' => hex_digits k' (n / 16) (String (hex_digit (n mod 16)) acc)
  end.

Definition Hex (o : ObjectID) : string := hex_digits 24 o "".

(** encoding/json on a [BookStore]: the fields in declaration order under
    their json names.  [mongo_id] is a 12-byte array, which [omitempty] never
    drops; it is written as its hexadecimal string. *)
Definition marshal_BookStore (b : BookStore) : json :=
  JObject [("mongo_id", JString (Hex (MongoID b)));
           ("id", JString (ID b));
           ("title", JString (BookName b));
           ("author", JString (BookAuthor b));
           ("edition", JString (BookEdition b));
           ("pages", JString (BookPages b));
           ("year", JString (BookYear b))].

(** encoding/json on a [map[string]interface{}]: the entries sorted by key. *)
Definition key_le (x y : string * json) : Prop := String.le x.1 y.1.

Global Instance key_le_dec : RelDecision key_le.
Proof. intros x y. unfold key_le. apply _. Defined.

Definition marshal_map (m : gmap string json) : json :=
  JObject (merge_sort key_le (map_to_list m)).

(** encoding/json on a [[]map[string]interface{}]: a nil slice is written as
    [null], any other slice as an array. *)
Definition marshal_maps (s : slice (gmap string json)) : json :=
  match s with
  | None => JNull
  | Some l => JArray (marshal_map <$> l)
  end.

(** How a Go function ends: it returns, it panics, or [log.Fatal] ends the
    process. *)
Inductive outcome (A : Type) : Type :=
| Return (a : A)
| Panic (e : error)
| Fatal (msg : string).
Arguments Return {A} a.
Arguments Panic {A} e.
Arguments Fatal {A} msg.

(** ** Data access *)

Definition startData : list BookStore :=
  [ {| MongoID := NilObjectID;
       ID := "example1";
       BookName := "The Vortex";
       BookAuthor := "JosÃ© Eustasio Rivera";
       BookEdition := "958-30-0804-4";
       BookPages := "292";
       BookYear := "1924" |};
    {| MongoID := NilObjectID;
       ID := "example2";
       BookName := "Frankenstein";
       BookAuthor := "Mary Shelley";
       BookEdition := "978-3-649-64609-9";
       BookPages := "280";
       BookYear := "1818" |};
    {| MongoID := NilObjectID;
       ID := "example3";
       BookName := "The Black Cat";
       BookAuthor := "Edgar Allan Poe";
       BookEdition := "978-3-99168-238-7";
       BookPages := "280";
       BookYear := "1843" |} ].

(** The body of the loop of [prepareData] for one fixture. *)
Definition prepareData_step (book : BookStore) (w : World)
  : outcome unit * World :=
  match Find (FilterBook book) w with
  | Err e => (Panic e, w)
  | Ok results =>
      if bool_decide (1 < length results)%nat then
        (Fatal "more records were found", w)
      else if bool_decide (length results = 0)%nat then
        match InsertOne book w with
        | (Err e, w') => (Panic e, w')
        | (Ok _, w') => (Return (), w')
        end
      else (Return (), w)
  end.

Fixpoint prepareData_loop (books : list BookStore) (w : World)
  : outcome unit * World :=
  match books with
  | [] => (Return (), w)
  | book :: rest =>
      match prepareData_step book w with
      | (Return _, w') => prepareData_loop rest w'
      | stop => stop
      end
  end.

Definition prepareData (w : World) : outcome unit * World :=
  prepareData_loop startData w.

(** The map literal built for one book in [findAllBooks]. *)
Definition book_map (res : BookStore) : gmap string json :=
  <["id" := JString (ID res)]>
  (<["title" := JString (BookName res)]>
  (<["author" := JString (BookAuthor res)]>
  (<["pages" := JString (BookPages res)]>
  (<["edition" := JString (BookEdition res)]>
  (<["year" := JString (BookYear res)]> ∅))))).

Definition findAllBooks (w : World) : outcome (slice (gmap string json)) :=
  match Find FilterAll w with
  | Err e => Panic e
  | Ok results =>
      Return (foldl (λ ret res, append ret (book_map res)) nil_slice results)
  end.

(** The type assertion [v.(string)] on a map entry. *)
Definition as_string (v : option json) : option string :=
  match v with
  | Some (JString s) => Some s
  | _ => None
  end.

(** [uniqueAuthorsMap] / [uniqueYearsMap]: the set of string values found
    under [key], kept as the keys of a [map[string]bool]. *)
Definition unique_values (key : string) (books : slice (gmap string json))
  : gmap string bool :=
  foldl (λ (u : gmap string bool) book,
           match as_string (book !! key) with
           | Some v => <[v := true]> u
           | None => u
           end) ∅ (elems_of books).

(** One map [{name: k}] appended per key, starting from a nil slice. *)
Definition singleton_maps (name : string) (keys : list string)
  : slice (gmap string json) :=
  foldl (λ ret k, append ret {[name := JString k]}) nil_slice keys.

Section GoMapIteration.
(** [for k := range m] visits the keys of a Go map in an order the runtime
    chooses; [range_keys] is that choice.  The statements about it assume
    what the language guarantees: every key is visited exactly once. *)
Variable range_keys : gmap string bool → list string.

Definition findAllAuthors (w : World) : outcome (slice (gmap string json)) :=
  match findAllBooks w with
  | Return books =>
      let uniqueAuthorsMap := unique_values "author" books in
      Return (singleton_maps "AuthorName" (range_keys uniqueAuthorsMap))
  | Panic e => Panic e
  | Fatal msg => Fatal msg
  end.

Definition findAllYears (w : World) : outcome (slice (gmap string json)) :=
  match findAllBooks w with
  | Return books =>
      let uniqueYearsMap := unique_values "year" books in
      Return (singleton_maps "BookYear" (range_keys uniqueYearsMap))
  | Panic e => Panic e
  | Fatal msg => Fatal msg
  end.
End GoMapIteration.

(** ** Request handlers *)

(** [GET /api/books]. *)
Definition GET_api_books (w : World) : outcome Response :=
  match findAllBooks w with
  | Return books => Return (c_JSON StatusOK (marshal_maps books))
  | Panic e => Panic e
  | Fatal msg => Fatal msg
  end.

(** [POST /api/books].  [bound] is what [c.Bind(book)] leaves in [book], or
    [None] when it fails. *)
Definition POST_api_books (bound : option BookStore) (w : World)
  : Response * World :=
  match bound with
  | None =>
      (c_JSON StatusBadRequest (error_map "Invalid request payload"), w)
  | Some book =>
      let '(oid, w) := NewObjectID w in
      let book := with_MongoID oid book in
      if bool_decide (ID book = "") then
        (c_JSON StatusInternalServerError
           (error_map "Failed to create book"), w)
      else
        match FindOne (FilterID (ID book)) w with
        | Ok existingBook =>
            (c_JSON StatusConflict
               (error_map ("Book with ID " +:+ ID book +:+ " already exists")),
             w)
        | Err ErrNoDocuments =>
            match InsertOne book w with
            | (Err _, w') =>
                (c_JSON StatusInternalServerError
                   (error_map "Failed to create book"), w')
            | (Ok insertedID, w') =>
                (c_JSON StatusCreated (marshal_BookStore book), w')
            end
        | Err _ =>
            (c_JSON StatusInternalServerError
               (error_map "Failed to create book due to a database error"),
             w)
        end
  end.

(** The five guarded assignments building the [$set] document from the
    payload: json key, bson field name. *)
Definition set_if_string (requestPayload : gmap string json)
  (key field : string) (updateSet : gmap string string) : gmap string string :=
  match as_string (requestPayload !! key) with
  | Some v => <[field := v]> updateSet
  | None => updateSet
  end.

Definition build_updateSet (requestPayload : gmap string json)
  : gmap string string :=
  let updateSet : gmap string string := ∅ in
  let updateSet := set_if_string requestPayload "title" "bookname" updateSet in
  let updateSet := set_if_string requestPayload "author" "bookauthor" updateSet in
  let updateSet := set_if_string requestPayload "edition" "bookedition" updateSet in
  let updateSet := set_if_string requestPayload "pages" "bookpages" updateSet in
  let updateSet := set_if_string requestPayload "year" "bookyear" updateSet in
  updateSet.

(** [PUT /api/books/:id].  [idParam] is [c.Param("id")]; [bound] is the map
    [c.Bind(&requestPayload)] produces, or [None] when it fails. *)
Definition PUT_api_books_id (idParam : string)
  (bound : option (gmap string json)) (w : World) : Response * World :=
  match bound with
  | None =>
      (c_JSON StatusBadRequest (error_map "Invalid request payload"), w)
  | Some requestPayload =>
      let filter := FilterID idParam in
      let updateSet := build_updateSet requestPayload in
      if bool_decide (size updateSet = 0%nat) then
        (c_JSON StatusBadRequest
           (error_map "No valid fields provided for update"), w)
      else
        match UpdateOne filter updateSet w with
        | (Err _, w') =>
            (c_JSON StatusInternalServerError
               (error_map "Failed to update book"), w')
        | (Ok updateResult, w') =>
            if bool_decide (MatchedCount updateResult = 0) then
              (c_JSON StatusNotFound
                 (error_map ("Book not found with ID " +:+ idParam)), w')
            else
              match FindOne (FilterID idParam) w' with
              | Err _ =>
                  (c_JSON StatusInternalServerError
                     (error_map "Failed to retrieve updated book details"),
                   w')
              | Ok updatedBookFromDB =>
                  (c_JSON StatusOK (marshal_BookStore updatedBookFromDB), w')
              end
        end
  end.

(** [DELETE /api/books/:id]. *)
Definition DELETE_api_books_id (idParam : string) (w : World)
  : Response * World :=
  let filter := FilterID idParam in
  match DeleteOne filter w with
  | (Err _, w') =>
      (c_JSON StatusInternalServerError
         (error_map "Failed to delete book"), w')
  | (Ok deletedCount, w') =>
      if bool_decide (deletedCount = 0) then
        (c_JSON StatusNotFound
           (error_map ("Book not found with ID " +:+ idParam)), w')
      else (c_NoContent StatusOK, w')
  end.

(** ** Vocabulary of the statements *)

(** The member of a JSON object written under [key]. *)
Definition member (key : string) (v : json) : option json :=
  match v with
  | JObject members => snd <$> List.find (λ kv, bool_decide (kv.1 = key)) members
  | _ => None
  end.

(** The json keys the update handler reads. *)
Definition recognized_keys : list string :=
  ["title"; "author"; "edition"; "pages"; "year"].

(** How many documents carry the caller-supplied identifier [id]. *)
Definition count_id (id : string) (l : list BookStore) : nat :=
  length (List.filter (matches (FilterID id)) l).

(** How many documents a fixture matches by full-value equality. *)
Definition count_book (book : BookStore) (l : list BookStore) : nat :=
  length (List.filter (matches (FilterBook book)) l).

(** A store in which every fixture of [startData] has exactly one match. *)
Definition seeded (w : World) : Prop :=
  Forall (λ book, count_book book (coll w) = 1%nat) startData.

(** Requests used to exercise the handlers. *)
Definition book_without_id : BookStore :=
  {| MongoID := NilObjectID; ID := ""; BookName := "Dune";
     BookAuthor := "Frank Herbert"; BookEdition := "1"; BookPages := "412";
     BookYear := "1965" |}.

Definition dune : BookStore :=
  {| MongoID := NilObjectID; ID := "dune"; BookName := "Dune";
     BookAuthor := "Frank Herbert"; BookEdition := "1"; BookPages := "412";
     BookYear := "1965" |}.

(** The first fixture as stored by the first start, and after its title
    was replaced. *)
Definition vortex : BookStore :=
  {| MongoID := 1; ID := "example1"; BookName := "The Vortex";
     BookAuthor := "JosÃ© Eustasio Rivera"; BookEdition := "958-30-0804-4";
     BookPages := "292"; BookYear := "1924" |}.

Definition vortex_retitled : BookStore :=
  {| MongoID := 1; ID := "example1"; BookName := "New Title";
     BookAuthor := "JosÃ© Eustasio Rivera"; BookEdition := "958-30-0804-4";
     BookPages := "292"; BookYear := "1924" |}.

(** A create request that carries the id of the first fixture. *)
Definition example1_request : BookStore :=
  {| MongoID := NilObjectID; ID := "example1"; BookName := "The Vortex";
     BookAuthor := "JosÃ© Eustasio Rivera"; BookEdition := "958-30-0804-4";
     BookPages := "292"; BookYear := "1924" |}.

Definition title_payload : gmap string json :=
  {["title" := JString "New Title"]}.

(** [{"pages": 100}]: the number 100 as a float64. *)
Definition pages_number_payload : gmap string json :=
  {["pages" := JNumber 0x4059000000000000]}.

(** [{"publisher": "X"}]. *)
Definition publisher_payload : gmap string json :=
  {["publisher" := JString "X"]}.

(** States the running service reaches.  A first start on an empty
    collection; the title of a fixture is edited; a restart seeds again;
    all documents with the fixture ids are deleted. *)
Definition fresh_world : World := {| coll := []; oidCounter := 0 |}.

Definition seeded_world : World := (prepareData fresh_world).2.

Definition edited_world : World :=
  (PUT_api_books_id "example1" (Some title_payload) seeded_world).2.

Definition reseeded_world : World := (prepareData edited_world).2.

Definition emptied_world : World :=
  (DELETE_api_books_id "example3"
     (DELETE_api_books_id "example2"
        (DELETE_api_books_id "example1" seeded_world).2).2).2.

(** A collection of three books by the authors "A", "B" and "A". *)
Definition three_books_world : World :=
  {| coll := [ mkBook 1 "a1" "First" "A" "1" "100" "2001";
               mkBook 2 "b1" "Second" "B" "1" "200" "2002";
               mkBook 3 "a2" "Third" "A" "2" "300" "2003" ];
     oidCounter := 3 |}.

(** ** Sequences of API requests *)

(** The requests of the JSON API as the route table of [main] dispatches
    them, each with what the handler reads from it. *)
Inductive request : Type :=
| GetBooks
| PostBook (bound : option BookStore)
| PutBook (idParam : string) (bound : option (gmap string json))
| DeleteBook (idParam : string).

(** The store after one request, and after a sequence served in order. *)
Definition api_step (w : World) (r : request) : World :=
  match r with
  | GetBooks => w
  | PostBook bound => (POST_api_books bound w).2
  | PutBook idParam bound => (PUT_api_books_id idParam bound w).2
  | DeleteBook idParam => (DELETE_api_books_id idParam w).2
  end.

Definition api_run (rs : list request) (w : World) : World :=
  foldl api_step w rs.

(** No two documents carry the same caller-supplied id. *)
Definition unique_ids (w : World) : Prop := NoDup (ID <$> coll w).

(** No document carries the empty id. *)
Definition nonempty_ids (w : World) : Prop :=
  Forall (λ d, ID d ≠ "") (coll w).

(** Every stored [_id] is non-zero, was handed out by the generator, and
    belongs to one document only. *)
Definition object_ids_ok (w : World) : Prop :=
  Forall (λ d, 0 < MongoID d ≤ oidCounter w) (coll w) ∧
  NoDup (MongoID <$> coll w).

(** The fixtures of [books] that have no match in [l], in order. *)
Definition missing (books : list BookStore) (l : list BookStore)
  : list BookStore :=
  List.filter (λ b, bool_decide (count_book b l = 0%nat)) books.

(** ** The database and the start of the service *)

(** The database [exercise-1]: its collections by name, and the generator
    behind [primitive.NewObjectID]. *)
Record Server : Type := mkServer {
  collections : gmap string (list BookStore);
  generator : N
}.

(** [db.ListCollectionNames(ctx, bson.D{{}})]. *)
Definition ListCollectionNames (s : Server) : result (list string) :=
  Ok (map_to_list (collections s)).*1.

(** [db.RunCommand(ctx, bson.D{{"create", name}})]: a new, empty collection;
    an error when the name is taken. *)
Definition RunCommand_create (name : string) (s : Server)
  : result () * Server :=
  match collections s !! name with
  | Some _ => (Err (ErrDriver "NamespaceExists"), s)
  | None =>
      (Ok (), {| collections := <[name := []]> (collections s);
                 generator := generator s |})
  end.

(** [err.Error()]. *)
Definition Error (e : error) : string :=
  match e with
  | ErrNoDocuments => "mongo: no documents in result"
  | ErrDriver msg => msg
  end.

(** [prepareDatabase].  The collection handle it returns is kept as the name
    of the collection. *)
Definition prepareDatabase (collecName : string) (s : Server)
  : outcome (result string) * Server :=
  match ListCollectionNames s with
  | Err e => (Return (Err e), s)
  | Ok names =>
      if bool_decide (collecName ∈ names) then (Return (Ok collecName), s)
      else
        match RunCommand_create collecName s with
        | (Err e, s') => (Fatal (Error e), s')
        | (Ok _, s') => (Return (Ok collecName), s')
        end
  end.

(** Running code that holds the handle [name] against the server: it sees
    the documents of that collection and leaves the others alone. *)
Definition on_collection {A : Type} (name : string)
  (f : World → A * World) (s : Server) : A * Server :=
  let w := {| coll := default [] (collections s !! name);
              oidCounter := generator s |} in
  let '(a, w') := f w in
  (a, {| collections := <[name := coll w']> (collections s);
         generator := oidCounter w' |}).

(** The start of [main] up to the seeding: [prepareDatabase] on the
    collection [information], whose error result is not looked at, then
    [prepareData] on the handle (a nil handle when listing failed, on which
    the first driver call panics). *)
Definition startup (s : Server) : outcome () * Server :=
  match prepareDatabase "information" s with
  | (Return (Ok coll), s') => on_collection coll prepareData s'
  | (Return (Err e), s') =>
      (Panic (ErrDriver
                "runtime error: invalid memory address or nil pointer dereference"),
       s')
  | (Panic e, s') => (Panic e, s')
  | (Fatal msg, s') => (Fatal msg, s')
  end.

(** A server with another collection beside a seeded [information], and an
    empty server. *)
Definition empty_server : Server := {| collections := ∅; generator := 0 |}.

Definition other_server : Server :=
  {| collections := {["notes" := [dune]]}; generator := 7 |}.

(** Requests for the examples: a sequence that creates, edits and removes
    books. *)
Definition sample_requests : list request :=
  [ PostBook (Some dune);
    PostBook (Some dune);
    PutBook "dune" (Some title_payload);
    GetBooks;
    DeleteBook "example2";
    PostBook (Some book_without_id);
    PutBook "nosuch" (Some title_payload) ].

(** Closed decidable statements are settled by evaluation. *)
Ltac by_compute := apply (bool_decide_unpack _); vm_compute; exact I.

(** ** Lists: first match, replace first, remove first *)

Section FirstMatch.
Context {A : Type} (p : A → bool).

Lemma find_split (l : list A) (d : A) :
  List.find p l = Some d →
  ∃ l1 l2, l = l1 ++ d :: l2 ∧ Forall (λ x, p x = false) l1 ∧ p d = true.
Proof.
  induction l as [|x l IH]; simpl; [done|].
  destruct (p x) eqn:Hx.
  - intros [= ->]. exists [], l. by repeat split.
  - intros (l1 & l2 & -> & Hl1 & Hd)%IH.
    exists (x :: l1), l2. repeat split; [|done]. by constructor.
Qed.

Lemma find_skip (l1 l2 : list A) :
  Forall (λ x, p x = false) l1 → List.find p (l1 ++ l2) = List.find p l2.
Proof.
  induction 1 as [|x l1 Hx _ IH]; simpl; [done|]. by rewrite Hx.
Qed.

Lemma find_None_Forall (l : list A) :
  List.find p l = None ↔ Forall (λ x, p x = false) l.
Proof.
  induction l as [|x l IH]; simpl.
  - split; [constructor|done].
  - destruct (p x) eqn:Hx.
    + split; [done|]. intros H. inversion H; congruence.
    + rewrite IH. split; [by constructor|]. by inversion 1.
Qed.

Lemma filter_none (l : list A) :
  Forall (λ x, p x = false) l → List.filter p l = [].
Proof.
  induction 1 as [|x l Hx _ IH]; simpl; [done|]. by rewrite Hx.
Qed.

Lemma filter_nil_Forall (l : list A) :
  List.filter p l = [] → Forall (λ x, p x = false) l.
Proof.
  induction l as [|x l IH]; simpl; [constructor|].
  destruct (p x) eqn:Hx; [done|]. intros H. constructor; auto.
Qed.
End FirstMatch.

Lemma update_first_split p g (l1 l2 : list BookStore) d :
  Forall (λ x, p x = false) l1 → p d = true →
  update_first p g (l1 ++ d :: l2) = Some (l1 ++ g d :: l2).
Proof.
  intros Hl1 Hd. induction Hl1 as [|x l1 Hx _ IH]; simpl.
  - by rewrite Hd.
  - by rewrite Hx, IH.
Qed.

Lemma update_first_none p g (l : list BookStore) :
  Forall (λ x, p x = false) l → update_first p g l = None.
Proof.
  induction 1 as [|x l Hx _ IH]; simpl; [done|]. by rewrite Hx, IH.
Qed.

Lemma delete_first_split p (l1 l2 : list BookStore) d :
  Forall (λ x, p x = false) l1 → p d = true →
  delete_first p (l1 ++ d :: l2) = Some (l1 ++ l2).
Proof.
  intros Hl1 Hd. induction Hl1 as [|x l1 Hx _ IH]; simpl.
  - by rewrite Hd.
  - by rewrite Hx, IH.
Qed.

Lemma delete_first_none p (l : list BookStore) :
  Forall (λ x, p x = false) l → delete_first p l = None.
Proof.
  induction 1 as [|x l Hx _ IH]; simpl; [done|]. by rewrite Hx, IH.
Qed.

(** ** The store operations *)

Lemma matches_ID id d : matches (FilterID id) d = true ↔ ID d = id.
Proof. simpl. apply bool_decide_eq_true. Qed.

Lemma FindOne_Ok f w d :
  FindOne f w = Ok d ↔ List.find (matches f) (coll w) = Some d.
Proof.
  unfold FindOne. destruct (List.find _ _); split; congruence.
Qed.

Lemma FindOne_Err f w e :
  FindOne f w = Err e ↔
  e = ErrNoDocuments ∧ Forall (λ x, matches f x = false) (coll w).
Proof.
  unfold FindOne. rewrite <- find_None_Forall.
  destruct (List.find _ _) as [d|].
  - split; [done|]. by intros [_ ?].
  - split; [by intros [= <-]|]. by intros [-> _].
Qed.

Lemma count_id_0 id l :
  count_id id l = 0%nat ↔ Forall (λ x, matches (FilterID id) x = false) l.
Proof.
  unfold count_id. split.
  - intros H. apply filter_nil_Forall. by apply nil_length_inv.
  - intros H. by rewrite filter_none.
Qed.

Lemma count_id_app id l1 l2 :
  count_id id (l1 ++ l2) = (count_id id l1 + count_id id l2)%nat.
Proof. unfold count_id. by rewrite List.filter_app, length_app. Qed.

(** ** The update handler, case by case *)

Lemma PUT_no_valid_fields idParam requestPayload w :
  build_updateSet requestPayload = ∅ →
  PUT_api_books_id idParam (Some requestPayload) w =
    (c_JSON StatusBadRequest
       (error_map "No valid fields provided for update"), w).
Proof.
  intros Hu. unfold PUT_api_books_id. rewrite Hu.
  by rewrite bool_decide_eq_true_2 by apply map_size_empty.
Qed.

Lemma PUT_not_found idParam requestPayload w :
  build_updateSet requestPayload ≠ ∅ →
  Forall (λ d, ID d ≠ idParam) (coll w) →
  PUT_api_books_id idParam (Some requestPayload) w =
    (c_JSON StatusNotFound
       (error_map ("Book not found with ID " +:+ idParam)), w).
Proof.
  intros Hu Hno. unfold PUT_api_books_id.
  rewrite bool_decide_eq_false_2 by (by rewrite map_size_empty_iff).
  unfold UpdateOne. rewrite update_first_none; [done|].
  eapply Forall_impl; [exact Hno|]. intros d Hd. simpl.
  by apply bool_decide_eq_false.
Qed.

Lemma PUT_found idParam requestPayload w d :
  build_updateSet requestPayload ≠ ∅ →
  FindOne (FilterID idParam) w = Ok d →
  ∃ l1 l2,
    coll w = l1 ++ d :: l2 ∧
    Forall (λ x, ID x ≠ idParam) l1 ∧
    PUT_api_books_id idParam (Some requestPayload) w =
      (c_JSON StatusOK
         (marshal_BookStore (apply_set (build_updateSet requestPayload) d)),
       {| coll := l1 ++ apply_set (build_updateSet requestPayload) d :: l2;
          oidCounter := oidCounter w |}).
Proof.
  intros Hu (l1 & l2 & Hw & Hl1 & Hd)%FindOne_Ok%find_split.
  exists l1, l2. split; [done|]. split.
  { eapply Forall_impl; [exact Hl1|]. intros x Hx. simpl in Hx.
    by apply bool_decide_eq_false in Hx. }
  unfold PUT_api_books_id.
  rewrite bool_decide_eq_false_2 by (by rewrite map_size_empty_iff).
  unfold UpdateOne. rewrite Hw, update_first_split by done. simpl.
  unfold FindOne. simpl. rewrite find_skip by done. simpl.
  simpl in Hd. by rewrite Hd.
Qed.

(** What the five guarded assignments leave in the [$set] document. *)
Lemma build_updateSet_lookup requestPayload field :
  build_updateSet requestPayload !! field =
    if bool_decide (field = "bookyear") then as_string (requestPayload !! "year")
    else if bool_decide (field = "bookpages") then as_string (requestPayload !! "pages")
    else if bool_decide (field = "bookedition") then as_string (requestPayload !! "edition")
    else if bool_decide (field = "bookauthor") then as_string (requestPayload !! "author")
    else if bool_decide (field = "bookname") then as_string (requestPayload !! "title")
    else None.
Proof.
  unfold build_updateSet, set_if_string.
  repeat case_bool_decide; subst;
    repeat (destruct (as_string (requestPayload !! _));
            simplify_map_eq; try done).
Qed.

Lemma build_updateSet_empty requestPayload :
  build_updateSet requestPayload = ∅ ↔
  Forall (λ k, as_string (requestPayload !! k) = None) recognized_keys.
Proof.
  split.
  - intros Hu.
    assert (∀ f, build_updateSet requestPayload !! f = None) as H
      by (intros f; by rewrite Hu).
    pose proof (H "bookname") as H1. pose proof (H "bookauthor") as H2.
    pose proof (H "bookedition") as H3. pose proof (H "bookpages") as H4.
    pose proof (H "bookyear") as H5.
    rewrite build_updateSet_lookup in H1, H2, H3, H4, H5. simpl in *.
    by repeat constructor.
  - intros H. apply map_eq. intros f.
    rewrite build_updateSet_lookup, lookup_empty.
    repeat (apply Forall_cons_1 in H as [? H]).
    repeat case_bool_decide; done.
Qed.

Lemma build_updateSet_ext p1 p2 :
  Forall (λ k, as_string (p1 !! k) = as_string (p2 !! k)) recognized_keys →
  build_updateSet p1 = build_updateSet p2.
Proof.
  unfold recognized_keys. rewrite !Forall_cons.
  intros (H1 & H2 & H3 & H4 & H5 & _).
  unfold build_updateSet, set_if_string. by rewrite H1, H2, H3, H4, H5.
Qed.

Lemma PUT_ext idParam p1 p2 w :
  build_updateSet p1 = build_updateSet p2 →
  PUT_api_books_id idParam (Some p1) w = PUT_api_books_id idParam (Some p2) w.
Proof. intros H. unfold PUT_api_books_id. by rewrite H. Qed.

Lemma as_string_not_string (v : json) :
  (∀ s, v ≠ JString s) → as_string (Some v) = None.
Proof. destruct v; naive_solver. Qed.

(** ** Creating a book *)




(** ** Updating a book *)

Lemma apply_set_build requestPayload d :
  apply_set (build_updateSet requestPayload) d =
    {| MongoID := MongoID d;
       ID := ID d;
       BookName := default (BookName d) (as_string (requestPayload !! "title"));
       BookAuthor := default (BookAuthor d) (as_string (requestPayload !! "author"));
       BookEdition := default (BookEdition d) (as_string (requestPayload !! "edition"));
       BookPages := default (BookPages d) (as_string (requestPayload !! "pages"));
       BookYear := default (BookYear d) (as_string (requestPayload !! "year")) |}.
Proof.
  unfold apply_set, set_field. by rewrite !build_updateSet_lookup.
Qed.

Lemma build_updateSet_nonempty requestPayload k s :
  k ∈ recognized_keys → requestPayload !! k = Some (JString s) →
  build_updateSet requestPayload ≠ ∅.
Proof.
  intros Hk Hs Hu. apply build_updateSet_empty in Hu.
  rewrite Forall_forall in Hu. specialize (Hu k Hk). by rewrite Hs in Hu.
Qed.

Lemma FindOne_after_replace idParam l1 l2 d n :
  Forall (λ x, ID x ≠ idParam) l1 → ID d = idParam →
  FindOne (FilterID idParam) {| coll := l1 ++ d :: l2; oidCounter := n |} = Ok d.
Proof.
  intros Hl1 Hd. unfold FindOne. simpl. rewrite find_skip.
  - simpl. by rewrite bool_decide_eq_true_2.
  - eapply Forall_impl; [exact Hl1|]. intros x Hx. simpl.
    by apply bool_decide_eq_false.
Qed.

Lemma FindOne_ID idParam w d : FindOne (FilterID idParam) w = Ok d → ID d = idParam.
Proof.
  intros (l1 & l2 & _ & _ & Hd)%FindOne_Ok%find_split.
  by apply matches_ID.
Qed.

(** C2: on an id that exists, a body whose only recognized key is [title]
    with the value "New Title" is answered with 200 and the encoding of the
    addressed document with the new title; that document is stored with the
    new title and with its [_id], id, author, edition, pages and year as
    before, and every other document is as before. *)
Theorem PUT_title_changes_only_title idParam requestPayload w d :
  FindOne (FilterID idParam) w = Ok d →
  requestPayload !! "title" = Some (JString "New Title") →
  Forall (λ k, requestPayload !! k = None)
         ["author"; "edition"; "pages"; "year"] →
  let d' := {| MongoID := MongoID d; ID := ID d; BookName := "New Title";
               BookAuthor := BookAuthor d; BookEdition := BookEdition d;
               BookPages := BookPages d; BookYear := BookYear d |} in
  ∃ l1 l2 w',
    coll w = l1 ++ d :: l2 ∧
    PUT_api_books_id idParam (Some requestPayload) w =
      (c_JSON StatusOK (marshal_BookStore d'), w') ∧
    coll w' = l1 ++ d' :: l2 ∧
    FindOne (FilterID idParam) w' = Ok d' ∧
    member "title" (marshal_BookStore d') = Some (JString "New Title").
Proof.
  intros Hd Ht Hrest d'.
  rewrite !Forall_cons in Hrest. destruct Hrest as (Ha & He & Hp & Hy & _).
  assert (build_updateSet requestPayload ≠ ∅) as Hu.
  { eapply (build_updateSet_nonempty _ "title"); [by_compute|done]. }
  destruct (PUT_found idParam requestPayload w d Hu Hd)
    as (l1 & l2 & Hw & Hl1 & HPUT).
  rewrite apply_set_build, Ht, Ha, He, Hp, Hy in HPUT. simpl in HPUT.
  exists l1, l2. eexists. split; [done|]. split; [exact HPUT|].
  split; [done|]. split; [|done].
  apply FindOne_after_replace; [done|]. simpl. by eapply FindOne_ID.
Qed.

Lemma PUT_title_changes_only_title_witness :
  ∃ l1 l2 w',
    coll seeded_world = l1 ++ vortex :: l2 ∧
    PUT_api_books_id "example1" (Some title_payload) seeded_world =
      (c_JSON StatusOK (marshal_BookStore vortex_retitled), w') ∧
    coll w' = l1 ++ vortex_retitled :: l2 ∧
    FindOne (FilterID "example1") w' = Ok vortex_retitled ∧
    member "title" (marshal_BookStore vortex_retitled)
      = Some (JString "New Title").
Proof.
  apply (PUT_title_changes_only_title "example1" title_payload
           seeded_world vortex).
  - reflexivity.
  - reflexivity.
  - repeat constructor.
Defined.

(** C4 (as amended): when no document carries the id of the path and the
    body has at least one recognized key with a string value, the update
    handler answers 404 and the collection is exactly as before. *)
Theorem PUT_unknown_id idParam requestPayload w :
  Forall (λ d, ID d ≠ idParam) (coll w) →
  (∃ k s, k ∈ recognized_keys ∧ requestPayload !! k = Some (JString s)) →
  PUT_api_books_id idParam (Some requestPayload) w =
    (c_JSON StatusNotFound
       (error_map ("Book not found with ID " +:+ idParam)), w).
Proof.
  intros Hno (k & s & Hk & Hs).
  apply PUT_not_found; [|done]. by eapply build_updateSet_nonempty.
Qed.

Lemma PUT_unknown_id_witness :
  PUT_api_books_id "nosuch" (Some title_payload) seeded_world =
    (c_JSON StatusNotFound (error_map "Book not found with ID nosuch"),
     seeded_world).
Proof.
  apply (PUT_unknown_id "nosuch" title_payload seeded_world).
  - repeat constructor; by vm_compute.
  - exists "title", "New Title". split; [by_compute|reflexivity].
Defined.

(** C4 as stated fails: the body [{"pages": 100}] contains the recognized
    key [pages], no document has the id [nosuch], and the answer is 400
    rather than 404. *)
Lemma PUT_unknown_id_number_is_400 :
  "pages" ∈ recognized_keys ∧
  is_Some (pages_number_payload !! "pages") ∧
  Forall (λ d, ID d ≠ "nosuch") (coll seeded_world) ∧
  status (PUT_api_books_id "nosuch" (Some pages_number_payload)
            seeded_world).1 = StatusBadRequest ∧
  status (PUT_api_books_id "nosuch" (Some pages_number_payload)
            seeded_world).1 ≠ StatusNotFound.
Proof.
  split; [by_compute|]. split; [by eexists|].
  split; [repeat constructor; by vm_compute|]. by vm_compute.
Qed.

(** C5: a body with none of the keys title, author, edition, pages, year is
    answered with 400 and nothing in the store changes; a key outside these
    five never changes the outcome; and on an id that exists, every one of
    the five keys that carries a string is written to the addressed
    document, which keeps the attributes whose keys are absent. *)
Theorem PUT_recognized_keys_only idParam requestPayload w :
  (Forall (λ k, requestPayload !! k = None) recognized_keys →
   PUT_api_books_id idParam (Some requestPayload) w =
     (c_JSON StatusBadRequest
        (error_map "No valid fields provided for update"), w)) ∧
  (∀ k v, k ∉ recognized_keys →
     PUT_api_books_id idParam (Some (<[k := v]> requestPayload)) w =
     PUT_api_books_id idParam (Some requestPayload) w) ∧
  (∀ d, FindOne (FilterID idParam) w = Ok d →
     (∃ k s, k ∈ recognized_keys ∧ requestPayload !! k = Some (JString s)) →
     ∃ d' w',
       PUT_api_books_id idParam (Some requestPayload) w =
         (c_JSON StatusOK (marshal_BookStore d'), w') ∧
       FindOne (FilterID idParam) w' = Ok d' ∧
       MongoID d' = MongoID d ∧ ID d' = ID d ∧
       BookName d' = default (BookName d) (as_string (requestPayload !! "title")) ∧
       BookAuthor d' = default (BookAuthor d) (as_string (requestPayload !! "author")) ∧
       BookEdition d' = default (BookEdition d) (as_string (requestPayload !! "edition")) ∧
       BookPages d' = default (BookPages d) (as_string (requestPayload !! "pages")) ∧
       BookYear d' = default (BookYear d) (as_string (requestPayload !! "year"))).
Proof.
  split; [|split].
  - intros Hnone. apply PUT_no_valid_fields, build_updateSet_empty.
    eapply Forall_impl; [exact Hnone|]. intros k Hk. simpl in Hk.
    by rewrite Hk.
  - intros k v Hk. apply PUT_ext, build_updateSet_ext.
    apply Forall_forall. intros k' Hk'.
    rewrite lookup_insert_ne; [done|]. by intros ->.
  - intros d Hd (k & s & Hk & Hs).
    assert (build_updateSet requestPayload ≠ ∅) as Hu
      by (by eapply build_updateSet_nonempty).
    destruct (PUT_found idParam requestPayload w d Hu Hd)
      as (l1 & l2 & Hw & Hl1 & HPUT).
    do 2 eexists. split; [exact HPUT|]. split.
    + apply FindOne_after_replace; [done|]. simpl. by eapply FindOne_ID.
    + by rewrite apply_set_build.
Qed.

Lemma PUT_recognized_keys_only_witness :
  PUT_api_books_id "example1" (Some publisher_payload) seeded_world =
    (c_JSON StatusBadRequest
       (error_map "No valid fields provided for update"), seeded_world) ∧
  PUT_api_books_id "example1"
    (Some (<["publisher" := JString "X"]> title_payload)) seeded_world =
  PUT_api_books_id "example1" (Some title_payload) seeded_world ∧
  ∃ d' w',
    PUT_api_books_id "example1" (Some title_payload) seeded_world =
      (c_JSON StatusOK (marshal_BookStore d'), w') ∧
    FindOne (FilterID "example1") w' = Ok d' ∧
    MongoID d' = MongoID vortex ∧ ID d' = ID vortex ∧
    BookName d' = "New Title" ∧
    BookAuthor d' = BookAuthor vortex ∧
    BookEdition d' = BookEdition vortex ∧
    BookPages d' = BookPages vortex ∧
    BookYear d' = BookYear vortex.
Proof.
  split; [|split].
  - apply (PUT_recognized_keys_only "example1" publisher_payload seeded_world).
    repeat constructor.
  - apply (PUT_recognized_keys_only "example1" title_payload seeded_world).
    by_compute.
  - apply (PUT_recognized_keys_only "example1" title_payload seeded_world).
    + reflexivity.
    + exists "title", "New Title". split; [by_compute|reflexivity].
Defined.

(** C10: a recognized key whose value is not a string changes nothing: the
    outcome is the one for the body without that key; and when no recognized
    key of the body carries a string (as in [{"pages": 100}]), the answer is
    400 and nothing in the store changes. *)
Theorem PUT_non_string_ignored idParam requestPayload w :
  (∀ k v, k ∈ recognized_keys → (∀ s, v ≠ JString s) →
     PUT_api_books_id idParam (Some (<[k := v]> requestPayload)) w =
     PUT_api_books_id idParam (Some (delete k requestPayload)) w) ∧
  (Forall (λ k, ∀ s, requestPayload !! k ≠ Some (JString s)) recognized_keys →
   PUT_api_books_id idParam (Some requestPayload) w =
     (c_JSON StatusBadRequest
        (error_map "No valid fields provided for update"), w)).
Proof.
  split.
  - intros k v Hk Hv. apply PUT_ext, build_updateSet_ext.
    apply Forall_forall. intros k' Hk'.
    destruct (decide (k = k')) as [<-|Hne].
    + rewrite lookup_insert_eq, lookup_delete_eq.
      by rewrite as_string_not_string.
    + by rewrite lookup_insert_ne, lookup_delete_ne.
  - intros Hnone. apply PUT_no_valid_fields, build_updateSet_empty.
    eapply Forall_impl; [exact Hnone|]. intros k Hk. simpl in Hk.
    destruct (requestPayload !! k) as [[]|]; naive_solver.
Qed.

Lemma PUT_non_string_ignored_witness :
  PUT_api_books_id "example1"
    (Some (<["pages" := JNumber 0x4059000000000000]> title_payload))
    seeded_world =
  PUT_api_books_id "example1" (Some (delete "pages" title_payload))
    seeded_world ∧
  PUT_api_books_id "example1" (Some pages_number_payload) seeded_world =
    (c_JSON StatusBadRequest
       (error_map "No valid fields provided for update"), seeded_world).
Proof.
  split.
  - apply (PUT_non_string_ignored "example1" title_payload seeded_world).
    + by_compute.
    + done.
  - apply (PUT_non_string_ignored "example1" pages_number_payload
             seeded_world).
    repeat constructor; by vm_compute.
Defined.

(** ** Creating and deleting, case by case *)

Lemma no_match_ID id (l : list BookStore) :
  Forall (λ x, matches (FilterID id) x = false) l ↔ Forall (λ x, ID x ≠ id) l.
Proof.
  apply Forall_proper; [|done]. intros x. simpl.
  apply bool_decide_eq_false.
Qed.

Lemma some_match_ID id (l : list BookStore) :
  ¬ Forall (λ x, ID x ≠ id) l → ∃ d, List.find (matches (FilterID id)) l = Some d.
Proof.
  intros Hne. destruct (List.find (matches (FilterID id)) l) as [d|] eqn:Hf.
  - by exists d.
  - destruct Hne. by apply no_match_ID, find_None_Forall.
Qed.

Lemma POST_created book w :
  ID book ≠ "" → Forall (λ x, ID x ≠ ID book) (coll w) →
  POST_api_books (Some book) w =
    (c_JSON StatusCreated
       (marshal_BookStore (with_MongoID (N.succ (oidCounter w)) book)),
     {| coll := coll w ++ [with_MongoID (N.succ (oidCounter w)) book];
        oidCounter := N.succ (oidCounter w) |}).
Proof.
  intros Hid Hno. unfold POST_api_books. simpl.
  rewrite bool_decide_eq_false_2 by done.
  unfold FindOne. simpl.
  apply no_match_ID, find_None_Forall in Hno. rewrite Hno.
  unfold InsertOne, IsZero. simpl.
  rewrite bool_decide_eq_false_2; [done|]. unfold NilObjectID. lia.
Qed.

Lemma POST_conflict book w :
  ID book ≠ "" → ¬ Forall (λ x, ID x ≠ ID book) (coll w) →
  POST_api_books (Some book) w =
    (c_JSON StatusConflict
       (error_map ("Book with ID " +:+ ID book +:+ " already exists")),
     {| coll := coll w; oidCounter := N.succ (oidCounter w) |}).
Proof.
  intros Hid [d Hd]%some_match_ID. unfold POST_api_books. simpl.
  rewrite bool_decide_eq_false_2 by done.
  unfold FindOne. simpl. by rewrite Hd.
Qed.

Lemma DELETE_found idParam w :
  ¬ Forall (λ x, ID x ≠ idParam) (coll w) →
  ∃ l1 d l2,
    coll w = l1 ++ d :: l2 ∧ Forall (λ x, ID x ≠ idParam) l1 ∧
    ID d = idParam ∧
    DELETE_api_books_id idParam w =
      (c_NoContent StatusOK,
       {| coll := l1 ++ l2; oidCounter := oidCounter w |}).
Proof.
  intros [d (l1 & l2 & Hw & Hl1 & Hd)%find_split]%some_match_ID.
  exists l1, d, l2. split; [done|]. split; [by apply no_match_ID|].
  split; [by apply matches_ID|].
  unfold DELETE_api_books_id, DeleteOne.
  by rewrite Hw, delete_first_split.
Qed.

Lemma DELETE_not_found idParam w :
  Forall (λ x, ID x ≠ idParam) (coll w) →
  DELETE_api_books_id idParam w =
    (c_JSON StatusNotFound
       (error_map ("Book not found with ID " +:+ idParam)), w).
Proof.
  intros Hno%no_match_ID. unfold DELETE_api_books_id, DeleteOne.
  by rewrite delete_first_none.
Qed.

Lemma Exists_ID id (l : list BookStore) :
  Exists (λ d, ID d = id) l → ¬ Forall (λ d, ID d ≠ id) l.
Proof.
  rewrite Exists_exists, Forall_forall. intros (d & Hd & Hid) Hno.
  by apply (Hno d).
Qed.

Lemma count_id_cons_match id d l :
  ID d = id → count_id id (d :: l) = S (count_id id l).
Proof.
  intros Hd. unfold count_id. simpl. by rewrite bool_decide_eq_true_2.
Qed.

Lemma count_id_none id l :
  Forall (λ x, ID x ≠ id) l → count_id id l = 0%nat.
Proof. intros H. by apply count_id_0, no_match_ID. Qed.

Lemma count_id_pos id l :
  ¬ Forall (λ x, ID x ≠ id) l → (0 < count_id id l)%nat.
Proof.
  intros Hne. destruct (count_id id l) eqn:Hc; [|lia].
  destruct Hne. by apply no_match_ID, count_id_0.
Qed.

(** The restart after the edit completes and leaves two documents under the
    id [example1]: the edited one and a new copy of the fixture. *)
Lemma reseeded_world_reached :
  prepareData edited_world = (Return (), reseeded_world) ∧
  coll reseeded_world =
    coll edited_world ++ [with_MongoID 4 example1_request] ∧
  count_id "example1" (coll reseeded_world) = 2%nat.
Proof. by vm_compute. Qed.

(** C3 (as amended): of two create requests in a row that carry the same
    non-empty id, the second is answered with 409; and when the collection
    held at most one document with that id before the first request, it
    holds exactly one after the second. *)
Theorem POST_twice_same_id b1 b2 w :
  ID b1 ≠ "" → ID b2 = ID b1 →
  let w1 := (POST_api_books (Some b1) w).2 in
  let r2 := (POST_api_books (Some b2) w1).1 in
  let w2 := (POST_api_books (Some b2) w1).2 in
  status r2 = StatusConflict ∧
  ((count_id (ID b1) (coll w) ≤ 1)%nat → count_id (ID b1) (coll w2) = 1%nat).
Proof.
  intros Hid H21 w1 r2 w2. subst w1 r2 w2.
  assert (ID b2 ≠ "") as Hid2 by congruence.
  destruct (decide (Forall (λ x, ID x ≠ ID b1) (coll w))) as [Hno|Hsome].
  - rewrite (POST_created b1 w Hid Hno). cbn [snd].
    rewrite POST_conflict; [|done|].
    + cbn [fst snd status c_JSON coll]. split; [done|]. intros _.
      rewrite count_id_app, (count_id_none _ _ Hno).
      by rewrite count_id_cons_match.
    + cbn [coll]. rewrite H21, Forall_app, Forall_singleton.
      intros [_ Hne]. by apply Hne.
  - rewrite (POST_conflict b1 w Hid Hsome). cbn [snd].
    rewrite POST_conflict; [|done|by rewrite H21].
    cbn [fst snd status c_JSON coll]. split; [done|].
    pose proof (count_id_pos _ _ Hsome). lia.
Qed.

Lemma POST_twice_same_id_witness :
  let w1 := (POST_api_books (Some dune) seeded_world).2 in
  let r2 := (POST_api_books (Some dune) w1).1 in
  let w2 := (POST_api_books (Some dune) w1).2 in
  status r2 = StatusConflict ∧ count_id (ID dune) (coll w2) = 1%nat.
Proof.
  destruct (POST_twice_same_id dune dune seeded_world) as [H409 Hone];
    [done|done|].
  split; [exact H409|]. apply Hone. vm_compute. lia.
Defined.

(** C3 as stated fails.  After the title of the first fixture was edited and
    the service restarted, two documents carry the id [example1]; two create
    requests with that id are both refused and two documents remain. *)
Lemma POST_twice_leaves_two :
  ID example1_request ≠ "" ∧
  status (POST_api_books (Some example1_request)
            (POST_api_books (Some example1_request) reseeded_world).2).1
    = StatusConflict ∧
  count_id "example1"
    (coll (POST_api_books (Some example1_request)
             (POST_api_books (Some example1_request) reseeded_world).2).2)
    = 2%nat ∧
  count_id "example1"
    (coll (POST_api_books (Some example1_request)
             (POST_api_books (Some example1_request) reseeded_world).2).2)
    ≠ 1%nat.
Proof. by vm_compute. Qed.

(** C7 (as amended): deleting an id that exists is answered with 200 and no
    body, and removes the first document with that id; when exactly one
    document carried the id, a following fetch by that id finds no document
    and a second delete is answered with 404 and changes nothing. *)
Theorem DELETE_existing_id idParam w :
  Exists (λ d, ID d = idParam) (coll w) →
  ∃ w',
    DELETE_api_books_id idParam w = (c_NoContent StatusOK, w') ∧
    S (count_id idParam (coll w')) = count_id idParam (coll w) ∧
    (count_id idParam (coll w) = 1%nat →
     FindOne (FilterID idParam) w' = Err ErrNoDocuments ∧
     DELETE_api_books_id idParam w' =
       (c_JSON StatusNotFound
          (error_map ("Book not found with ID " +:+ idParam)), w')).
Proof.
  intros (l1 & d & l2 & Hw & Hl1 & Hd & HDEL)%Exists_ID%DELETE_found.
  eexists. split; [exact HDEL|]. cbn [coll].
  assert (S (count_id idParam (l1 ++ l2)) = count_id idParam (coll w)) as Hc.
  { rewrite Hw, !count_id_app, count_id_cons_match by done. lia. }
  split; [done|]. intros H1.
  assert (Forall (λ x, ID x ≠ idParam) (l1 ++ l2)) as Hno.
  { apply no_match_ID, count_id_0. lia. }
  split.
  - apply FindOne_Err. split; [done|]. by apply no_match_ID.
  - by apply DELETE_not_found.
Qed.

Lemma DELETE_existing_id_witness :
  ∃ w',
    DELETE_api_books_id "example2" seeded_world = (c_NoContent StatusOK, w') ∧
    FindOne (FilterID "example2") w' = Err ErrNoDocuments ∧
    DELETE_api_books_id "example2" w' =
      (c_JSON StatusNotFound
         (error_map "Book not found with ID example2"), w').
Proof.
  destruct (DELETE_existing_id "example2" seeded_world)
    as (w' & Hfirst & _ & Hone); [by_compute|].
  exists w'. split; [exact Hfirst|]. apply Hone. reflexivity.
Defined.

(** C7 as stated fails.  With two documents under the id [example1], the
    first delete is answered with 200, a fetch by that id still finds a
    document, and the second delete is answered with 200 again. *)
Lemma DELETE_twice_with_duplicates :
  Exists (λ d, ID d = "example1") (coll reseeded_world) ∧
  (DELETE_api_books_id "example1" reseeded_world).1 = c_NoContent StatusOK ∧
  FindOne (FilterID "example1")
    (DELETE_api_books_id "example1" reseeded_world).2
    = Ok (with_MongoID 4 example1_request) ∧
  FindOne (FilterID "example1")
    (DELETE_api_books_id "example1" reseeded_world).2
    ≠ Err ErrNoDocuments ∧
  status (DELETE_api_books_id "example1"
            (DELETE_api_books_id "example1" reseeded_world).2).1
    = StatusOK ∧
  status (DELETE_api_books_id "example1"
            (DELETE_api_books_id "example1" reseeded_world).2).1
    ≠ StatusNotFound.
Proof.
  split; [by_compute|]. by vm_compute.
Qed.

(** ** Seeding *)

Lemma count_book_app book l1 l2 :
  count_book book (l1 ++ l2) = (count_book book l1 + count_book book l2)%nat.
Proof. unfold count_book. by rewrite List.filter_app, length_app. Qed.

Lemma count_book_singleton book d :
  count_book book [d] = if matches (FilterBook book) d then 1%nat else 0%nat.
Proof.
  unfold count_book. cbn [List.filter].
  by destruct (matches (FilterBook book) d).
Qed.

(** A fixture without [_id] matches the document inserted for it. *)
Lemma matches_inserted book oid :
  MongoID book = NilObjectID →
  matches (FilterBook book) (with_MongoID oid book) = true.
Proof.
  intros Hz. unfold matches, IsZero. rewrite Hz. simpl.
  by rewrite !bool_decide_eq_true_2.
Qed.

(** Two filters without [_id] that accept a common document accept the same
    documents. *)
Lemma matches_same_fields b0 b oid d :
  MongoID b0 = NilObjectID → MongoID b = NilObjectID →
  matches (FilterBook b0) (with_MongoID oid b) = true →
  matches (FilterBook b) d = matches (FilterBook b0) d.
Proof.
  intros Hz0 Hz. unfold matches, IsZero. rewrite Hz0, Hz. simpl.
  rewrite !andb_true_iff, !bool_decide_eq_true.
  intros (((((-> & ->) & ->) & ->) & ->) & ->). done.
Qed.

Lemma prepareData_step_cases book w :
  MongoID book = NilObjectID →
  (count_book book (coll w) = 0%nat →
   prepareData_step book w =
     (Return (),
      {| coll := coll w ++ [with_MongoID (N.succ (oidCounter w)) book];
         oidCounter := N.succ (oidCounter w) |})) ∧
  (count_book book (coll w) = 1%nat → prepareData_step book w = (Return (), w)) ∧
  ((1 < count_book book (coll w))%nat →
   prepareData_step book w = (Fatal "more records were found", w)).
Proof.
  intros Hz. unfold prepareData_step, Find, count_book.
  split; [|split]; intros Hc.
  - rewrite bool_decide_eq_false_2 by lia.
    rewrite bool_decide_eq_true_2 by done.
    unfold InsertOne, IsZero. rewrite bool_decide_eq_true_2 by done. done.
  - rewrite bool_decide_eq_false_2 by lia.
    by rewrite bool_decide_eq_false_2 by lia.
  - by rewrite bool_decide_eq_true_2 by done.
Qed.

Lemma prepareData_step_returns book w w' :
  MongoID book = NilObjectID →
  prepareData_step book w = (Return (), w') →
  (count_book book (coll w) = 1%nat ∧ w' = w) ∨
  (count_book book (coll w) = 0%nat ∧
   coll w' = coll w ++ [with_MongoID (N.succ (oidCounter w)) book]).
Proof.
  intros Hz Hstep.
  destruct (prepareData_step_cases book w Hz) as (H0 & H1 & Hmany).
  destruct (count_book book (coll w)) as [|[|n]] eqn:Hc.
  - right. rewrite H0 in Hstep by done. by injection Hstep as <-.
  - left. rewrite H1 in Hstep by done. by injection Hstep as <-.
  - rewrite Hmany in Hstep by lia. done.
Qed.

Lemma prepareData_step_establishes book w w' :
  MongoID book = NilObjectID →
  prepareData_step book w = (Return (), w') →
  count_book book (coll w') = 1%nat.
Proof.
  intros Hz [[Hc ->]|[Hc Hw']]%prepareData_step_returns; [done| |done].
  by rewrite Hw', count_book_app, Hc, count_book_singleton,
     matches_inserted.
Qed.

Lemma prepareData_step_preserves b0 book w w' :
  MongoID b0 = NilObjectID → MongoID book = NilObjectID →
  count_book b0 (coll w) = 1%nat →
  prepareData_step book w = (Return (), w') →
  count_book b0 (coll w') = 1%nat.
Proof.
  intros Hz0 Hz H0 [[Hc ->]|[Hc Hw']]%prepareData_step_returns; [done| |done].
  rewrite Hw', count_book_app, H0, count_book_singleton.
  destruct (matches (FilterBook b0)
              (with_MongoID (N.succ (oidCounter w)) book)) eqn:Hm; [|done].
  exfalso. unfold count_book in *.
  rewrite (List.filter_ext _ _
             (λ d, matches_same_fields b0 book _ d Hz0 Hz Hm)) in Hc.
  congruence.
Qed.

Lemma prepareData_loop_cons book rest w w' :
  prepareData_loop (book :: rest) w = (Return (), w') →
  ∃ w1, prepareData_step book w = (Return (), w1) ∧
        prepareData_loop rest w1 = (Return (), w').
Proof.
  simpl. destruct (prepareData_step book w) as [[[]| |] w1]; [|done..].
  intros H. by exists w1.
Qed.

Lemma prepareData_loop_preserves b0 books :
  MongoID b0 = NilObjectID →
  Forall (λ b, MongoID b = NilObjectID) books →
  ∀ w w', count_book b0 (coll w) = 1%nat →
          prepareData_loop books w = (Return (), w') →
          count_book b0 (coll w') = 1%nat.
Proof.
  intros Hz0. induction 1 as [|book rest Hz _ IH]; intros w w' H0.
  - simpl. by intros [= <-].
  - intros (w1 & Hstep & Hrest)%prepareData_loop_cons.
    eapply IH; [|exact Hrest]. by eapply prepareData_step_preserves.
Qed.

Lemma prepareData_loop_establishes books :
  Forall (λ b, MongoID b = NilObjectID) books →
  ∀ w w', prepareData_loop books w = (Return (), w') →
          Forall (λ b, count_book b (coll w') = 1%nat) books.
Proof.
  induction 1 as [|book rest Hz Hrest IH]; intros w w'; [by constructor|].
  intros (w1 & Hstep & Hloop)%prepareData_loop_cons. constructor.
  - eapply prepareData_loop_preserves; [done|done| |exact Hloop].
    by eapply prepareData_step_establishes.
  - by eapply IH.
Qed.

Lemma prepareData_loop_seeded books w :
  Forall (λ b, MongoID b = NilObjectID) books →
  Forall (λ b, count_book b (coll w) = 1%nat) books →
  prepareData_loop books w = (Return (), w).
Proof.
  intros Hz. induction 1 as [|book rest H1 _ IH]; [done|].
  apply Forall_cons_1 in Hz as [Hz Hzs]. simpl.
  destruct (prepareData_step_cases book w Hz) as (_ & -> & _); auto.
Qed.

Lemma startData_no_MongoID : Forall (λ b, MongoID b = NilObjectID) startData.
Proof. by repeat constructor. Qed.

(** C6: for each fixture the seed routine counts the documents equal to it
    in all six attributes; with none it inserts the fixture, with one it
    changes nothing, with more it stops with "more records were found".  A
    run that completes leaves every fixture with exactly one match, and a
    second run on its result changes nothing; on any store in which every
    fixture has exactly one match a run completes and changes nothing, so
    that two runs in a row leave the number of documents as it was. *)
Theorem prepareData_idempotent :
  (∀ book w, book ∈ startData →
     (count_book book (coll w) = 0%nat →
      prepareData_step book w =
        (Return (),
         {| coll := coll w ++ [with_MongoID (N.succ (oidCounter w)) book];
            oidCounter := N.succ (oidCounter w) |})) ∧
     (count_book book (coll w) = 1%nat →
      prepareData_step book w = (Return (), w)) ∧
     ((1 < count_book book (coll w))%nat →
      prepareData_step book w = (Fatal "more records were found", w))) ∧
  (∀ w w', prepareData w = (Return (), w') →
     seeded w' ∧ prepareData w' = (Return (), w')) ∧
  (∀ w, seeded w →
     prepareData w = (Return (), w) ∧
     prepareData (prepareData w).2 = (Return (), w) ∧
     length (coll (prepareData (prepareData w).2).2) = length (coll w)).
Proof.
  assert (∀ w, seeded w → prepareData w = (Return (), w)) as Hseeded.
  { intros w Hw. apply prepareData_loop_seeded; [|done].
    apply startData_no_MongoID. }
  split; [|split].
  - intros book w Hin. apply prepareData_step_cases.
    pose proof startData_no_MongoID as Hz. rewrite Forall_forall in Hz. auto.
  - intros w w' Hrun.
    assert (seeded w') as Hw'; [|by auto].
    eapply prepareData_loop_establishes; [|exact Hrun].
    apply startData_no_MongoID.
  - intros w Hw. rewrite (Hseeded w Hw). cbn [snd].
    by rewrite (Hseeded w Hw).
Qed.

Lemma prepareData_idempotent_witness :
  seeded seeded_world ∧
  prepareData seeded_world = (Return (), seeded_world) ∧
  prepareData (prepareData seeded_world).2 = (Return (), seeded_world) ∧
  length (coll (prepareData (prepareData seeded_world).2).2)
    = length (coll seeded_world).
Proof.
  destruct prepareData_idempotent as (_ & Hrun & Hagain).
  destruct (Hrun fresh_world seeded_world) as [Hs _]; [reflexivity|].
  split; [exact Hs|]. exact (Hagain seeded_world Hs).
Defined.

(** ** Listing books and authors *)

Lemma foldl_append_Some {A B : Type} (f : A → B) (l : list A) (acc : list B) :
  foldl (λ ret x, append ret (f x)) (Some acc) l = Some (acc ++ (f <$> l)).
Proof.
  revert acc. induction l as [|x l IH]; intros acc; simpl.
  - by rewrite app_nil_r.
  - by rewrite IH, <- app_assoc.
Qed.

Lemma foldl_append_nil {A B : Type} (f : A → B) (l : list A) :
  foldl (λ ret x, append ret (f x)) nil_slice l =
    match l with
    | [] => nil_slice
    | _ :: _ => Some (f <$> l)
    end.
Proof. destruct l as [|x l]; [done|]. simpl. by rewrite foldl_append_Some. Qed.

Lemma elems_of_foldl_append {A B : Type} (f : A → B) (l : list A) :
  elems_of (foldl (λ ret x, append ret (f x)) nil_slice l) = f <$> l.
Proof. rewrite foldl_append_nil. by destruct l. Qed.

Lemma filter_all (l : list BookStore) : List.filter (matches FilterAll) l = l.
Proof. induction l as [|d l IH]; simpl; by f_equal. Qed.

Lemma findAllBooks_elems w :
  ∃ books, findAllBooks w = Return books ∧ elems_of books = book_map <$> coll w.
Proof.
  unfold findAllBooks, Find. rewrite filter_all. eexists. split; [done|].
  by rewrite elems_of_foldl_append.
Qed.

(** The object written for one book. *)
Lemma marshal_book_map d :
  marshal_map (book_map d) =
    JObject [("author", JString (BookAuthor d));
             ("edition", JString (BookEdition d));
             ("id", JString (ID d));
             ("pages", JString (BookPages d));
             ("title", JString (BookName d));
             ("year", JString (BookYear d))].
Proof. reflexivity. Qed.

(** On a collection that is not empty [GET /api/books] writes an array with
    one object per document, in the order of the collection. *)
Lemma GET_api_books_nonempty w :
  coll w ≠ [] →
  GET_api_books w =
    Return (c_JSON StatusOK (JArray (marshal_map ∘ book_map <$> coll w))).
Proof.
  intros Hne. unfold GET_api_books, findAllBooks, Find.
  rewrite filter_all, foldl_append_nil. destruct (coll w) as [|d l]; [done|].
  unfold marshal_maps. by rewrite <- list_fmap_compose.
Qed.

(** C9 fails on the empty collection: after the three seeded books are
    deleted the collection is empty and [GET /api/books] answers 200 with
    the body [null], which is not a JSON array. *)
Theorem GET_api_books_empty_is_null :
  coll emptied_world = [] ∧
  GET_api_books emptied_world = Return (c_JSON StatusOK JNull) ∧
  GET_api_books emptied_world ≠ Return (c_JSON StatusOK (JArray [])).
Proof. by vm_compute. Qed.

Section DistinctAuthors.
Variable range_keys : gmap string bool → list string.
Hypothesis range_keys_perm :
  ∀ m : gmap string bool, range_keys m ≡ₚ (map_to_list m).*1.

Lemma range_keys_NoDup m : NoDup (range_keys m).
Proof. rewrite range_keys_perm. apply NoDup_fst_map_to_list. Qed.

Lemma elem_of_range_keys m k : k ∈ range_keys m ↔ is_Some (m !! k).
Proof.
  rewrite range_keys_perm, list_elem_of_fmap. split.
  - intros ([k' v] & -> & Hkv%elem_of_map_to_list). by exists v.
  - intros [v Hv]. exists (k, v). split; [done|].
    by apply elem_of_map_to_list.
Qed.

Lemma unique_values_fold key (l : list (gmap string json))
  (u : gmap string bool) a :
  is_Some (foldl (λ (u : gmap string bool) book,
                    match as_string (book !! key) with
                    | Some v => <[v := true]> u
                    | None => u
                    end) u l !! a) ↔
  is_Some (u !! a) ∨ ∃ book, book ∈ l ∧ as_string (book !! key) = Some a.
Proof.
  revert u. induction l as [|book l IH]; intros u; simpl.
  - split; [by left|]. intros [?|(book & Hin & _)]; [done|].
    by apply elem_of_nil in Hin.
  - rewrite IH. split.
    + intros [Hu|(b & Hin & Hb)].
      * destruct (as_string (book !! key)) as [v|] eqn:Hv; [|by left].
        destruct (decide (v = a)) as [->|Hne].
        -- right. exists book. split; [by left|done].
        -- left. by rewrite lookup_insert_ne in Hu.
      * right. exists b. split; [by right|done].
    + intros [Hu|(b & [->|Hin]%elem_of_cons & Hb)].
      * left. destruct (as_string (book !! key)) as [v|]; [|done].
        destruct (decide (v = a)) as [->|Hne].
        -- rewrite lookup_insert_eq. by eexists.
        -- by rewrite lookup_insert_ne.
      * left. rewrite Hb, lookup_insert_eq. by eexists.
      * right. by exists b.
Qed.

Lemma unique_authors_lookup w books a :
  elems_of books = book_map <$> coll w →
  is_Some (unique_values "author" books !! a) ↔
  ∃ d, d ∈ coll w ∧ BookAuthor d = a.
Proof.
  intros Hbooks. unfold unique_values.
  rewrite unique_values_fold, Hbooks, lookup_empty. split.
  - intros [[? [=]]|(book & (d & -> & Hd)%list_elem_of_fmap & Ha)].
    exists d. split; [done|]. by injection Ha.
  - intros (d & Hd & <-). right. exists (book_map d).
    split; [|done]. apply list_elem_of_fmap. by exists d.
Qed.

(** C8: the author listing returns one entry [{"AuthorName": a}] for each
    author string [a] that some stored book carries, none twice and no
    other, in the order the map iteration chooses; over three books by
    "A", "B", "A" these are the two entries for "A" and "B". *)
Theorem findAllAuthors_distinct w :
  ∃ ret authors,
    findAllAuthors range_keys w = Return ret ∧
    elems_of ret = (λ a, {["AuthorName" := JString a]}) <$> authors ∧
    NoDup authors ∧
    NoDup (elems_of ret) ∧
    (∀ a, a ∈ authors ↔ ∃ d, d ∈ coll w ∧ BookAuthor d = a) ∧
    (BookAuthor <$> coll w ≡ₚ ["A"; "B"; "A"] →
     authors ≡ₚ ["A"; "B"] ∧ len ret = 2%nat).
Proof.
  destruct (findAllBooks_elems w) as (books & Hfind & Hbooks).
  unfold findAllAuthors. rewrite Hfind.
  set (authors := range_keys (unique_values "author" books)).
  assert (∀ a, a ∈ authors ↔ ∃ d, d ∈ coll w ∧ BookAuthor d = a) as Hmem.
  { intros a. unfold authors.
    by rewrite elem_of_range_keys, unique_authors_lookup. }
  assert (elems_of (singleton_maps "AuthorName" authors)
          = (λ a, {["AuthorName" := JString a]}) <$> authors) as Helems
    by apply elems_of_foldl_append.
  exists (singleton_maps "AuthorName" authors), authors.
  split; [done|]. split; [done|].
  split; [apply range_keys_NoDup|]. split.
  { rewrite Helems. apply NoDup_fmap_2; [|apply range_keys_NoDup].
    intros a1 a2 Heq.
    assert (({["AuthorName" := JString a1]} : gmap string json)
              !! "AuthorName" = Some (JString a2)) as Hl
      by (by rewrite Heq, lookup_singleton_eq).
    rewrite lookup_singleton_eq in Hl. by injection Hl. }
  split; [done|]. intros Hperm.
  assert (authors ≡ₚ ["A"; "B"]) as Hab.
  { apply NoDup_Permutation; [apply range_keys_NoDup|by_compute|].
    intros a. rewrite Hmem.
    transitivity (a ∈ BookAuthor <$> coll w).
    - rewrite list_elem_of_fmap.
      split; intros (d & ? & ?); exists d; by split.
    - rewrite Hperm, !elem_of_cons. tauto. }
  split; [done|].
  assert (len (singleton_maps "AuthorName" authors)
          = length (elems_of (singleton_maps "AuthorName" authors))) as ->
    by (by destruct (singleton_maps _ _)).
  by rewrite Helems, length_fmap, Hab.
Qed.
End DistinctAuthors.

Lemma findAllAuthors_distinct_witness :
  ∃ ret authors,
    findAllAuthors (λ m, (map_to_list m).*1) three_books_world = Return ret ∧
    elems_of ret = (λ a, {["AuthorName" := JString a]}) <$> authors ∧
    authors ≡ₚ ["A"; "B"] ∧ len ret = 2%nat.
Proof.
  destruct (findAllAuthors_distinct (λ m, (map_to_list m).*1)
              (λ m, reflexivity _) three_books_world)
    as (ret & authors & Hret & Helems & _ & _ & _ & Hthree).
  exists ret, authors. split; [exact Hret|]. split; [exact Helems|].
  apply Hthree. reflexivity.
Defined.

(** * Further properties of the handlers and of the start-up *)

(** ** Creating a book: outcomes and effect *)

Lemma POST_no_id book w :
  ID book = "" →
  POST_api_books (Some book) w =
    (c_JSON StatusInternalServerError (error_map "Failed to create book"),
     {| coll := coll w; oidCounter := N.succ (oidCounter w) |}).
Proof.
  intros Hid. unfold POST_api_books. simpl. by rewrite Hid.
Qed.

Lemma Forall_or_Exists_ID id (l : list BookStore) :
  Forall (λ d, ID d ≠ id) l ∨ Exists (λ d, ID d = id) l.
Proof.
  induction l as [|d l [IH|IH]].
  - left. constructor.
  - destruct (decide (ID d = id)) as [Hd|Hd].
    + right. by left.
    + left. by constructor.
  - right. by right.
Qed.


(** X2: after a book with a new, non-empty id is created, the listing holds
    the entries it held before followed by one entry with the submitted
    values, and exactly one entry of the listing has that id. *)
Theorem POST_then_list book w :
  ID book ≠ "" → Forall (λ d, ID d ≠ ID book) (coll w) →
  ∃ books,
    findAllBooks (POST_api_books (Some book) w).2 = Return books ∧
    elems_of books = (book_map <$> coll w) ++ [book_map book] ∧
    length (List.filter
              (λ m : gmap string json,
                 bool_decide (as_string (m !! "id") = Some (ID book)))
              (elems_of books)) = 1%nat.
Proof.
  intros Hid Hno. rewrite POST_created by done. cbn [snd].
  destruct (findAllBooks_elems
              {| coll := coll w ++ [with_MongoID (N.succ (oidCounter w)) book];
                 oidCounter := N.succ (oidCounter w) |})
    as (books & Hfind & Helems).
  cbn [coll] in Helems. rewrite fmap_app in Helems.
  exists books. split; [done|]. split; [done|].
  rewrite Helems, List.filter_app, length_app.
  replace (List.filter _ (book_map <$> coll w)) with (@nil (gmap string json)).
  - cbn. by rewrite bool_decide_eq_true_2.
  - symmetry. apply filter_none. apply Forall_fmap.
    eapply Forall_impl; [exact Hno|]. intros d Hd. cbn.
    apply bool_decide_eq_false. intros [= Heq]. done.
Qed.

Lemma POST_then_list_witness :
  ∃ books,
    findAllBooks (POST_api_books (Some dune) seeded_world).2 = Return books ∧
    elems_of books = (book_map <$> coll seeded_world) ++ [book_map dune] ∧
    length (List.filter
              (λ m : gmap string json,
                 bool_decide (as_string (m !! "id") = Some (ID dune)))
              (elems_of books)) = 1%nat.
Proof.
  apply (POST_then_list dune seeded_world).
  - done.
  - by_compute.
Defined.

(** X3: the create handler never changes or removes a stored document: the
    collection afterwards is the collection before followed by the new
    document when the answer is 201, and by nothing otherwise. *)
Theorem POST_only_appends bound w :
  ∃ l,
    coll (POST_api_books bound w).2 = coll w ++ l ∧
    length l =
      if bool_decide (status (POST_api_books bound w).1 = StatusCreated)
      then 1%nat else 0%nat.
Proof.
  destruct bound as [book|].
  - destruct (decide (ID book = "")) as [Hid|Hid].
    { rewrite POST_no_id by done. exists []. cbn. by rewrite app_nil_r. }
    destruct (Forall_or_Exists_ID (ID book) (coll w)) as [Hno|Hsome].
    + rewrite POST_created by done. eexists. split; [reflexivity|done].
    + apply Exists_ID in Hsome. rewrite POST_conflict by done.
      exists []. cbn. by rewrite app_nil_r.
  - exists []. cbn. by rewrite app_nil_r.
Qed.

(** X4: creating a book under a new, non-empty id and then deleting that id
    is answered with 201 and 200 and leaves the documents of the collection
    exactly as they were. *)
Theorem POST_then_DELETE book w :
  ID book ≠ "" → Forall (λ d, ID d ≠ ID book) (coll w) →
  status (POST_api_books (Some book) w).1 = StatusCreated ∧
  (DELETE_api_books_id (ID book) (POST_api_books (Some book) w).2).1
    = c_NoContent StatusOK ∧
  coll (DELETE_api_books_id (ID book) (POST_api_books (Some book) w).2).2
    = coll w.
Proof.
  intros Hid Hno. rewrite POST_created by done. cbn [fst snd].
  split; [done|].
  unfold DELETE_api_books_id, DeleteOne. cbn [coll].
  rewrite delete_first_split.
  - cbn. by rewrite app_nil_r.
  - by apply no_match_ID.
  - cbn. by apply bool_decide_eq_true.
Qed.

Lemma POST_then_DELETE_witness :
  status (POST_api_books (Some dune) seeded_world).1 = StatusCreated ∧
  (DELETE_api_books_id (ID dune) (POST_api_books (Some dune) seeded_world).2).1
    = c_NoContent StatusOK ∧
  coll (DELETE_api_books_id (ID dune)
          (POST_api_books (Some dune) seeded_world).2).2
    = coll seeded_world.
Proof.
  apply (POST_then_DELETE dune seeded_world).
  - done.
  - by_compute.
Defined.

(** X5: after a book with a new, non-empty id is created, a fetch by that id
    returns a document with the submitted attributes and a non-zero [_id],
    and the 201 body is the encoding of that document. *)
Theorem POST_then_FindOne book w :
  ID book ≠ "" → Forall (λ d, ID d ≠ ID book) (coll w) →
  ∃ d,
    FindOne (FilterID (ID book)) (POST_api_books (Some book) w).2 = Ok d ∧
    (POST_api_books (Some book) w).1
      = c_JSON StatusCreated (marshal_BookStore d) ∧
    MongoID d ≠ NilObjectID ∧
    with_MongoID (MongoID book) d = book.
Proof.
  intros Hid Hno. rewrite POST_created by done. cbn [fst snd].
  exists (with_MongoID (N.succ (oidCounter w)) book).
  split; [|split; [done|split]].
  - apply FindOne_after_replace; done.
  - cbn. unfold NilObjectID. lia.
  - by destruct book.
Qed.

Lemma POST_then_FindOne_witness :
  ∃ d,
    FindOne (FilterID (ID dune)) (POST_api_books (Some dune) seeded_world).2
      = Ok d ∧
    (POST_api_books (Some dune) seeded_world).1
      = c_JSON StatusCreated (marshal_BookStore d) ∧
    MongoID d ≠ NilObjectID ∧
    with_MongoID (MongoID dune) d = dune.
Proof.
  apply (POST_then_FindOne dune seeded_world).
  - done.
  - by_compute.
Defined.

(** ** Updating a book: outcomes and effect *)

Lemma PUT_at idParam requestPayload l1 d l2 n :
  build_updateSet requestPayload ≠ ∅ →
  Forall (λ x, ID x ≠ idParam) l1 → ID d = idParam →
  PUT_api_books_id idParam (Some requestPayload)
    {| coll := l1 ++ d :: l2; oidCounter := n |} =
    (c_JSON StatusOK
       (marshal_BookStore (apply_set (build_updateSet requestPayload) d)),
     {| coll := l1 ++ apply_set (build_updateSet requestPayload) d :: l2;
        oidCounter := n |}).
Proof.
  intros Hu Hl1 Hd. unfold PUT_api_books_id.
  rewrite bool_decide_eq_false_2 by (by rewrite map_size_empty_iff).
  apply no_match_ID in Hl1.
  unfold UpdateOne. cbn [coll oidCounter].
  rewrite update_first_split; [|done|by apply matches_ID].
  cbn [MatchedCount]. rewrite bool_decide_eq_false_2 by done.
  unfold FindOne. cbn [coll]. rewrite find_skip by done.
  cbn. by rewrite bool_decide_eq_true_2.
Qed.

Lemma world_split idParam w :
  Exists (λ d, ID d = idParam) (coll w) →
  ∃ l1 d l2,
    w = {| coll := l1 ++ d :: l2; oidCounter := oidCounter w |} ∧
    Forall (λ x, ID x ≠ idParam) l1 ∧ ID d = idParam.
Proof.
  intros [d (l1 & l2 & Hw & Hl1 & Hd)%find_split]%Exists_ID%some_match_ID.
  exists l1, d, l2. split; [|split].
  - destruct w as [c n]. cbn in *. by rewrite Hw.
  - by apply no_match_ID.
  - by apply matches_ID.
Qed.

Lemma apply_set_idem u d : apply_set u (apply_set u d) = apply_set u d.
Proof.
  unfold apply_set, set_field. cbn.
  f_equal; by destruct (u !! _).
Qed.

(** X6: whatever the request, the update handler keeps the number and the
    order of the documents, the id and the [_id] of every document, and
    every document whose id is not the one of the path. *)
Theorem PUT_keeps_identity idParam bound w :
  ID <$> coll (PUT_api_books_id idParam bound w).2 = ID <$> coll w ∧
  MongoID <$> coll (PUT_api_books_id idParam bound w).2 = MongoID <$> coll w ∧
  List.filter (λ d, negb (matches (FilterID idParam) d))
    (coll (PUT_api_books_id idParam bound w).2)
  = List.filter (λ d, negb (matches (FilterID idParam) d)) (coll w).
Proof.
  destruct bound as [requestPayload|]; [|done].
  destruct (decide (build_updateSet requestPayload = ∅)) as [Hu|Hu].
  { by rewrite PUT_no_valid_fields. }
  destruct (Forall_or_Exists_ID idParam (coll w)) as [Hno|Hsome].
  { by rewrite PUT_not_found. }
  destruct (world_split idParam w Hsome) as (l1 & d & l2 & -> & Hl1 & Hd).
  rewrite PUT_at by done. cbn [snd coll].
  rewrite !fmap_app, !fmap_cons, !List.filter_app. cbn.
  by rewrite !bool_decide_eq_true_2.
Qed.

(** X7: the update handler is idempotent: the same request served a second
    time gets the same answer and leaves the store as the first left it. *)
Theorem PUT_idempotent idParam bound w :
  PUT_api_books_id idParam bound (PUT_api_books_id idParam bound w).2
  = PUT_api_books_id idParam bound w.
Proof.
  destruct bound as [requestPayload|]; [|done].
  destruct (decide (build_updateSet requestPayload = ∅)) as [Hu|Hu].
  { by rewrite !PUT_no_valid_fields. }
  destruct (Forall_or_Exists_ID idParam (coll w)) as [Hno|Hsome].
  { rewrite (PUT_not_found _ _ w) by done. cbn [snd].
    by rewrite PUT_not_found. }
  destruct (world_split idParam w Hsome) as (l1 & d & l2 & -> & Hl1 & Hd).
  rewrite PUT_at by done. cbn [snd].
  rewrite PUT_at by done. by rewrite apply_set_idem.
Qed.

(** X8: an update of an existing id whose string values are the ones already
    stored is still answered with 200 and the document, and the store is
    left as it was. *)
Theorem PUT_same_values idParam requestPayload w d :
  FindOne (FilterID idParam) w = Ok d →
  (∃ k s, k ∈ recognized_keys ∧ requestPayload !! k = Some (JString s)) →
  (∀ s, requestPayload !! "title" = Some (JString s) → s = BookName d) →
  (∀ s, requestPayload !! "author" = Some (JString s) → s = BookAuthor d) →
  (∀ s, requestPayload !! "edition" = Some (JString s) → s = BookEdition d) →
  (∀ s, requestPayload !! "pages" = Some (JString s) → s = BookPages d) →
  (∀ s, requestPayload !! "year" = Some (JString s) → s = BookYear d) →
  PUT_api_books_id idParam (Some requestPayload) w =
    (c_JSON StatusOK (marshal_BookStore d), w).
Proof.
  intros Hd (k & s & Hk & Hs) Ht Ha He Hp Hy.
  assert (build_updateSet requestPayload ≠ ∅) as Hu
    by (by eapply build_updateSet_nonempty).
  assert (∀ key old,
            (∀ s, requestPayload !! key = Some (JString s) → s = old) →
            default old (as_string (requestPayload !! key)) = old) as Hsame.
  { intros key old H. destruct (requestPayload !! key) as [[]|]; cbn; auto. }
  assert (apply_set (build_updateSet requestPayload) d = d) as Hfix.
  { rewrite apply_set_build, !Hsame by done. by destruct d. }
  destruct (PUT_found idParam requestPayload w d Hu Hd)
    as (l1 & l2 & Hw & _ & HPUT).
  rewrite HPUT, Hfix, <- Hw. by destruct w.
Qed.

Lemma PUT_same_values_witness :
  PUT_api_books_id "example1" (Some title_payload) edited_world =
    (c_JSON StatusOK (marshal_BookStore vortex_retitled), edited_world).
Proof.
  apply (PUT_same_values "example1" title_payload edited_world vortex_retitled).
  - reflexivity.
  - exists "title", "New Title". split; [by_compute|reflexivity].
  - intros s [= <-]. reflexivity.
  - intros s H. discriminate H.
  - intros s H. discriminate H.
  - intros s H. discriminate H.
  - intros s H. discriminate H.
Defined.

Lemma PUT_found_status idParam requestPayload w :
  build_updateSet requestPayload ≠ ∅ →
  Exists (λ d, ID d = idParam) (coll w) →
  status (PUT_api_books_id idParam (Some requestPayload) w).1 = StatusOK.
Proof.
  intros Hu Hsome.
  destruct (world_split idParam w Hsome) as (l1 & d & l2 & Hw & Hl1 & Hd).
  rewrite Hw. by rewrite PUT_at.
Qed.

Lemma Exists_is_Some_iff {A B : Type} (f : A → option B) (l : list A) :
  Exists (λ k, is_Some (f k)) l ↔ ¬ Forall (λ k, f k = None) l.
Proof.
  induction l as [|a l IH].
  - rewrite Exists_nil. split; [done|]. intros H. apply H. constructor.
  - rewrite Exists_cons, Forall_cons, IH.
    destruct (f a) as [b|]; split.
    + intros _ [? _]. done.
    + intros _. left. by exists b.
    + intros [[? [=]]|H] [_ HF]. by apply H.
    + intros H. right. intros HF. by apply H.
Qed.

(** X9: with a body that binds, the update handler answers 400 exactly when
    none of the five keys carries a string, 404 exactly when one does and no
    document has the id of the path, and 200 exactly when one does and some
    document has that id; a body that does not bind is answered with 400. *)
Theorem PUT_status_table idParam requestPayload w :
  (status (PUT_api_books_id idParam (Some requestPayload) w).1
     = StatusBadRequest ↔
   Forall (λ k, as_string (requestPayload !! k) = None) recognized_keys) ∧
  (status (PUT_api_books_id idParam (Some requestPayload) w).1
     = StatusNotFound ↔
   Exists (λ k, is_Some (as_string (requestPayload !! k))) recognized_keys ∧
   Forall (λ d, ID d ≠ idParam) (coll w)) ∧
  (status (PUT_api_books_id idParam (Some requestPayload) w).1 = StatusOK ↔
   Exists (λ k, is_Some (as_string (requestPayload !! k))) recognized_keys ∧
   Exists (λ d, ID d = idParam) (coll w)) ∧
  status (PUT_api_books_id idParam None w).1 = StatusBadRequest.
Proof.
  pose proof (Exists_is_Some_iff (λ k, as_string (requestPayload !! k))
                recognized_keys) as Hex.
  pose proof (build_updateSet_empty requestPayload) as Hempty.
  split; [|split; [|split; [|done]]];
    (destruct (decide (build_updateSet requestPayload = ∅)) as [Hu|Hu];
     [rewrite PUT_no_valid_fields by done
     |destruct (Forall_or_Exists_ID idParam (coll w)) as [Hno|Hsome];
      [rewrite PUT_not_found by done
      |rewrite PUT_found_status by done]]);
    cbn [fst status c_JSON]; rewrite ?Hex, <- ?Hempty.
  - done.
  - done.
  - done.
  - split; [done|]. by intros [].
  - done.
  - split; [done|]. intros [_ Hno]. by apply Exists_ID in Hsome.
  - split; [done|]. by intros [].
  - split; [done|]. intros [_ Hsome]. by apply Exists_ID in Hsome.
  - done.
Qed.

(** X10: whenever the update handler answers 200, the body is the encoding
    of the document a fetch by the id of the path now returns, and its [id]
    member is the id of the path. *)
Theorem PUT_200_body idParam bound w :
  status (PUT_api_books_id idParam bound w).1 = StatusOK →
  ∃ d,
    body (PUT_api_books_id idParam bound w).1 = Some (marshal_BookStore d) ∧
    FindOne (FilterID idParam) (PUT_api_books_id idParam bound w).2 = Ok d ∧
    member "id" (marshal_BookStore d) = Some (JString idParam).
Proof.
  destruct bound as [requestPayload|]; [|done].
  destruct (decide (build_updateSet requestPayload = ∅)) as [Hu|Hu].
  { by rewrite PUT_no_valid_fields. }
  destruct (Forall_or_Exists_ID idParam (coll w)) as [Hno|Hsome].
  { by rewrite PUT_not_found. }
  destruct (world_split idParam w Hsome) as (l1 & d & l2 & Hw & Hl1 & Hd).
  rewrite Hw, PUT_at by done. intros _. cbn [fst snd body c_JSON].
  eexists. split; [done|]. split.
  - by apply FindOne_after_replace.
  - cbn. by rewrite Hd.
Qed.

Lemma PUT_200_body_witness :
  ∃ d,
    body (PUT_api_books_id "example1" (Some title_payload) seeded_world).1
      = Some (marshal_BookStore d) ∧
    FindOne (FilterID "example1")
      (PUT_api_books_id "example1" (Some title_payload) seeded_world).2
      = Ok d ∧
    member "id" (marshal_BookStore d) = Some (JString "example1").
Proof.
  apply (PUT_200_body "example1" (Some title_payload) seeded_world).
  reflexivity.
Defined.

(** ** Deleting a book: outcomes and effect *)


(** X11: the delete handler answers 200 without a body exactly when some
    document has the id of the path, and then the collection has one
    document less; it answers 404 exactly when no document has that id, and
    then the store is left as it was. *)
Theorem DELETE_status_table idParam w :
  ((DELETE_api_books_id idParam w).1 = c_NoContent StatusOK ↔
   Exists (λ d, ID d = idParam) (coll w)) ∧
  (status (DELETE_api_books_id idParam w).1 = StatusNotFound ↔
   Forall (λ d, ID d ≠ idParam) (coll w)) ∧
  (Exists (λ d, ID d = idParam) (coll w) →
   S (length (coll (DELETE_api_books_id idParam w).2)) = length (coll w)) ∧
  (Forall (λ d, ID d ≠ idParam) (coll w) →
   (DELETE_api_books_id idParam w).2 = w).
Proof.
  destruct (Forall_or_Exists_ID idParam (coll w)) as [Hno|Hsome].
  - rewrite DELETE_not_found by done. cbn.
    split; [|split; [|split]]; try done.
    + split; [done|]. intros He. by apply Exists_ID in He.
    + intros He. by apply Exists_ID in He.
  - pose proof (Exists_ID _ _ Hsome) as Hnf.
    destruct (DELETE_found idParam w Hnf)
      as (l1 & d & l2 & Hw & Hl1 & Hd & ->).
    cbn. split; [|split; [|split]]; try done.
    intros _. rewrite Hw, !length_app. cbn. lia.
Qed.

Lemma DELETE_status_table_witness :
  S (length (coll (DELETE_api_books_id "example2" seeded_world).2))
    = length (coll seeded_world) ∧
  (DELETE_api_books_id "nosuch" seeded_world).2 = seeded_world.
Proof.
  destruct (DELETE_status_table "example2" seeded_world)
    as (_ & _ & Hless & _).
  destruct (DELETE_status_table "nosuch" seeded_world)
    as (_ & _ & _ & Hsame).
  split.
  - apply Hless. by_compute.
  - apply Hsame. by_compute.
Defined.


(** ** What one request can do to the collection *)

Lemma POST_effect bound w :
  (coll (POST_api_books bound w).2 = coll w ∧
   oidCounter w ≤ oidCounter (POST_api_books bound w).2) ∨
  (∃ book,
     ID book ≠ "" ∧ Forall (λ d, ID d ≠ ID book) (coll w) ∧
     (POST_api_books bound w).2 =
       {| coll := coll w ++ [with_MongoID (N.succ (oidCounter w)) book];
          oidCounter := N.succ (oidCounter w) |}).
Proof.
  destruct bound as [book|]; [|left; cbn; split; [done|lia]].
  destruct (decide (ID book = "")) as [Hid|Hid].
  { left. rewrite POST_no_id by done. cbn. split; [done|lia]. }
  destruct (Forall_or_Exists_ID (ID book) (coll w)) as [Hno|Hsome].
  - right. exists book. by rewrite POST_created.
  - left. apply Exists_ID in Hsome. rewrite POST_conflict by done.
    cbn. split; [done|lia].
Qed.

Lemma PUT_effect idParam bound w :
  (PUT_api_books_id idParam bound w).2 = w ∨
  (∃ l1 d l2 u,
     coll w = l1 ++ d :: l2 ∧
     (PUT_api_books_id idParam bound w).2 =
       {| coll := l1 ++ apply_set u d :: l2; oidCounter := oidCounter w |}).
Proof.
  destruct bound as [requestPayload|]; [|by left].
  destruct (decide (build_updateSet requestPayload = ∅)) as [Hu|Hu].
  { left. by rewrite PUT_no_valid_fields. }
  destruct (Forall_or_Exists_ID idParam (coll w)) as [Hno|Hsome].
  { left. by rewrite PUT_not_found. }
  right.
  destruct (world_split idParam w Hsome) as (l1 & d & l2 & Hw & Hl1 & Hd).
  exists l1, d, l2, (build_updateSet requestPayload). split.
  - by rewrite Hw.
  - rewrite Hw at 1. by rewrite PUT_at.
Qed.

Lemma DELETE_effect idParam w :
  (DELETE_api_books_id idParam w).2 = w ∨
  (∃ l1 d l2,
     coll w = l1 ++ d :: l2 ∧
     (DELETE_api_books_id idParam w).2 =
       {| coll := l1 ++ l2; oidCounter := oidCounter w |}).
Proof.
  destruct (Forall_or_Exists_ID idParam (coll w)) as [Hno|Hsome].
  { left. by rewrite DELETE_not_found. }
  right. apply Exists_ID in Hsome.
  destruct (DELETE_found idParam w Hsome)
    as (l1 & d & l2 & Hw & _ & _ & ->).
  by exists l1, d, l2.
Qed.

Lemma api_run_snoc rs r w : api_run (rs ++ [r]) w = api_step (api_run rs w) r.
Proof. unfold api_run. by rewrite foldl_app. Qed.

(** An invariant of every single request is an invariant of every run. *)
Lemma api_run_invariant (P : World → Prop) :
  (∀ w r, P w → P (api_step w r)) →
  ∀ rs w, P w → P (api_run rs w).
Proof.
  intros Hstep rs. induction rs as [|r rs IH]; intros w Hw; [done|].
  cbn. apply IH. by apply Hstep.
Qed.

Lemma api_step_unique_ids w r : unique_ids w → unique_ids (api_step w r).
Proof.
  unfold unique_ids. intros Hw. destruct r as [|bound|idParam bound|idParam].
  - done.
  - cbn. destruct (POST_effect bound w) as [[-> _]|(book & Hid & Hno & ->)];
      [done|].
    cbn. rewrite fmap_app. apply NoDup_app. split; [done|]. split.
    + intros id (d & -> & Hd)%list_elem_of_fmap [Heq|[]%elem_of_nil]%elem_of_cons.
      rewrite Forall_forall in Hno. by apply (Hno d).
    + apply NoDup_singleton.
  - cbn. destruct (PUT_effect idParam bound w)
      as [->|(l1 & d & l2 & u & Hc & ->)]; [done|].
    cbn. rewrite Hc in Hw. by rewrite fmap_app, fmap_cons in *.
  - cbn. destruct (DELETE_effect idParam w)
      as [->|(l1 & d & l2 & Hc & ->)]; [done|].
    cbn. rewrite Hc in Hw. eapply sublist_NoDup; [exact Hw|].
    apply fmap_sublist, sublist_app; [done|]. by apply sublist_cons.
Qed.

(** X13: served one after the other, the requests of the JSON API never
    give two documents the same id: if the ids in the collection are
    pairwise different before a sequence of requests, they are after it. *)
Theorem api_run_unique_ids rs w :
  unique_ids w → unique_ids (api_run rs w).
Proof. apply api_run_invariant. intros w' r. apply api_step_unique_ids. Qed.

Lemma api_run_unique_ids_witness :
  unique_ids (api_run sample_requests seeded_world).
Proof.
  apply (api_run_unique_ids sample_requests seeded_world). by_compute.
Defined.

Lemma prepareData_step_effect book w :
  MongoID book = NilObjectID →
  (prepareData_step book w).2 = w ∨
  (prepareData_step book w).2 =
    {| coll := coll w ++ [with_MongoID (N.succ (oidCounter w)) book];
       oidCounter := N.succ (oidCounter w) |}.
Proof.
  intros Hz. destruct (prepareData_step_cases book w Hz) as (H0 & H1 & Hmany).
  destruct (count_book book (coll w)) as [|[|n]].
  - right. by rewrite H0.
  - left. by rewrite H1.
  - left. rewrite Hmany; [done|lia].
Qed.

Lemma prepareData_loop_invariant (P : World → Prop) books :
  Forall (λ b, ∀ w, P w → P (prepareData_step b w).2) books →
  ∀ w, P w → P (prepareData_loop books w).2.
Proof.
  induction 1 as [|b rest Hb _ IH]; intros w Hw; [done|].
  cbn [prepareData_loop]. specialize (Hb w Hw).
  destruct (prepareData_step b w) as [[[]| |] w1]; cbn [snd] in *; auto.
Qed.

Lemma prepareData_invariant (P : World → Prop) :
  (∀ b w, b ∈ startData → P w →
          P {| coll := coll w ++ [with_MongoID (N.succ (oidCounter w)) b];
               oidCounter := N.succ (oidCounter w) |}) →
  ∀ w, P w → P (prepareData w).2.
Proof.
  intros Happend. apply prepareData_loop_invariant.
  apply Forall_forall. intros b Hb w Hw.
  pose proof startData_no_MongoID as Hz. rewrite Forall_forall in Hz.
  destruct (prepareData_step_effect b w (Hz b Hb)) as [->| ->]; auto.
Qed.

Lemma startData_ids_nonempty : Forall (λ b, ID b ≠ "") startData.
Proof. by repeat constructor. Qed.

Lemma api_step_nonempty_ids w r : nonempty_ids w → nonempty_ids (api_step w r).
Proof.
  unfold nonempty_ids. intros Hw. destruct r as [|bound|idParam bound|idParam].
  - done.
  - cbn. destruct (POST_effect bound w) as [[-> _]|(book & Hid & Hno & ->)];
      [done|].
    cbn. apply Forall_app. split; [done|]. by apply Forall_singleton.
  - cbn. destruct (PUT_effect idParam bound w)
      as [->|(l1 & d & l2 & u & Hc & ->)]; [done|].
    cbn. rewrite Hc in Hw. rewrite Forall_app, Forall_cons in *.
    destruct Hw as (? & ? & ?). by repeat split.
  - cbn. destruct (DELETE_effect idParam w)
      as [->|(l1 & d & l2 & Hc & ->)]; [done|].
    cbn. rewrite Hc in Hw. rewrite Forall_app, Forall_cons in Hw.
    apply Forall_app. destruct Hw as (? & ? & ?). by split.
Qed.

(** X14: no request of the JSON API and no run of the seed routine stores a
    document with the empty id: if every document has a non-empty id before,
    every document has one after. *)
Theorem nonempty_ids_kept :
  (∀ rs w, nonempty_ids w → nonempty_ids (api_run rs w)) ∧
  (∀ w, nonempty_ids w → nonempty_ids (prepareData w).2).
Proof.
  split.
  - apply api_run_invariant. intros w r. apply api_step_nonempty_ids.
  - apply (prepareData_invariant nonempty_ids). intros b w Hb Hw.
    unfold nonempty_ids in *. cbn. apply Forall_app. split; [done|].
    apply Forall_singleton. cbn.
    pose proof startData_ids_nonempty as Hne. rewrite Forall_forall in Hne.
    by apply Hne.
Qed.

Lemma nonempty_ids_kept_witness :
  nonempty_ids (api_run sample_requests seeded_world) ∧
  nonempty_ids (prepareData (api_run sample_requests seeded_world)).2.
Proof.
  destruct nonempty_ids_kept as [Hrun Hseed].
  assert (nonempty_ids (api_run sample_requests seeded_world)) as H.
  { apply Hrun. by_compute. }
  split; [exact H|]. apply Hseed. exact H.
Defined.

Lemma object_ids_ok_append c n d :
  object_ids_ok {| coll := c; oidCounter := n |} →
  MongoID d = N.succ n →
  object_ids_ok {| coll := c ++ [d]; oidCounter := N.succ n |}.
Proof.
  unfold object_ids_ok. cbn. intros [Hb Hnd] Hd. split.
  - apply Forall_app. split.
    + eapply Forall_impl; [exact Hb|]. cbn. intros x ?. lia.
    + apply Forall_singleton. lia.
  - rewrite fmap_app. apply NoDup_app. split; [done|]. split.
    + intros o (x & -> & Hx)%list_elem_of_fmap [Heq|[]%elem_of_nil]%elem_of_cons.
      rewrite Forall_forall in Hb. specialize (Hb x Hx). cbn in Heq. lia.
    + apply NoDup_singleton.
Qed.

Lemma object_ids_ok_mono c n m :
  object_ids_ok {| coll := c; oidCounter := n |} → n ≤ m →
  object_ids_ok {| coll := c; oidCounter := m |}.
Proof.
  unfold object_ids_ok. cbn. intros [Hb Hnd] Hle. split; [|done].
  eapply Forall_impl; [exact Hb|]. cbn. intros x ?. lia.
Qed.

Lemma object_ids_ok_sublist c c' n :
  object_ids_ok {| coll := c; oidCounter := n |} → c' `sublist_of` c →
  object_ids_ok {| coll := c'; oidCounter := n |}.
Proof.
  unfold object_ids_ok. cbn. intros [Hb Hnd] Hsub. split.
  - apply Forall_forall. intros x Hx. rewrite Forall_forall in Hb.
    apply Hb. by apply (sublist_subseteq _ _ Hsub).
  - eapply sublist_NoDup; [exact Hnd|]. by apply fmap_sublist.
Qed.

Lemma api_step_object_ids_ok w r : object_ids_ok w → object_ids_ok (api_step w r).
Proof.
  intros Hw. destruct r as [|bound|idParam bound|idParam].
  - done.
  - cbn. destruct (POST_effect bound w) as [[Hc Hn]|(book & Hid & Hno & ->)].
    + destruct (POST_api_books bound w).2 as [c' n']. cbn in *. subst c'.
      destruct w as [c n]. by eapply object_ids_ok_mono.
    + destruct w as [c n]. by apply object_ids_ok_append.
  - cbn. destruct (PUT_effect idParam bound w)
      as [->|(l1 & d & l2 & u & Hc & ->)]; [done|].
    destruct w as [c n]. cbn in *. subst c.
    unfold object_ids_ok in *. cbn in *.
    by rewrite Forall_app, Forall_cons, fmap_app, fmap_cons in *.
  - cbn. destruct (DELETE_effect idParam w)
      as [->|(l1 & d & l2 & Hc & ->)]; [done|].
    destruct w as [c n]. cbn in *. subst c.
    eapply object_ids_ok_sublist; [exact Hw|].
    apply sublist_app; [done|]. by apply sublist_cons.
Qed.

(** X15: every request of the JSON API and every run of the seed routine
    keeps the [_id] values in order: each stored [_id] is non-zero, is at
    most the last value the generator handed out, and belongs to one
    document only.  An insert therefore never meets an [_id] that is taken. *)
Theorem object_ids_kept :
  (∀ rs w, object_ids_ok w → object_ids_ok (api_run rs w)) ∧
  (∀ w, object_ids_ok w → object_ids_ok (prepareData w).2).
Proof.
  split.
  - apply api_run_invariant. intros w r. apply api_step_object_ids_ok.
  - apply (prepareData_invariant object_ids_ok). intros b w Hb Hw.
    destruct w as [c n]. by apply object_ids_ok_append.
Qed.

Lemma object_ids_kept_witness :
  object_ids_ok (api_run sample_requests seeded_world) ∧
  object_ids_ok (prepareData (api_run sample_requests seeded_world)).2.
Proof.
  destruct object_ids_kept as [Hrun Hseed].
  assert (object_ids_ok (api_run sample_requests seeded_world)) as H.
  { apply Hrun. split; by_compute. }
  split; [exact H|]. apply Hseed. exact H.
Defined.

(** ** Seeding: what a run adds and when it stops *)

Lemma without_MongoID book o :
  MongoID book = NilObjectID →
  with_MongoID NilObjectID (with_MongoID o book) = book.
Proof. intros Hz. destruct book. cbn in *. by subst. Qed.

(** The document inserted for one fixture is no match for another one. *)
Lemma matches_other_fixture b b' o :
  MongoID b = NilObjectID → MongoID b' = NilObjectID → b ≠ b' →
  matches (FilterBook b) (with_MongoID o b') = false.
Proof.
  intros Hz Hz' Hne. apply not_true_is_false. intros Hm. apply Hne.
  unfold matches, IsZero in Hm. rewrite Hz in Hm. cbn in Hm.
  rewrite !andb_true_iff, !bool_decide_eq_true in Hm.
  destruct Hm as ((((([_ ?] & ?) & ?) & ?) & ?) & ?).
  destruct b, b'. cbn in *. by subst.
Qed.

Lemma count_book_after_insert b b' o l :
  MongoID b = NilObjectID → MongoID b' = NilObjectID → b ≠ b' →
  count_book b (l ++ [with_MongoID o b']) = count_book b l.
Proof.
  intros Hz Hz' Hne.
  rewrite count_book_app, count_book_singleton, matches_other_fixture by done.
  lia.
Qed.

Lemma missing_after_insert books b' o l :
  Forall (λ b, MongoID b = NilObjectID) books → MongoID b' = NilObjectID →
  b' ∉ books →
  missing books (l ++ [with_MongoID o b']) = missing books l.
Proof.
  intros Hz Hz' Hnotin. unfold missing. apply List.filter_ext_in.
  intros b Hb%list_elem_of_In. rewrite Forall_forall in Hz.
  rewrite count_book_after_insert; [done|by apply Hz|done|].
  by intros ->.
Qed.

Lemma prepareData_loop_completes books :
  NoDup books → Forall (λ b, MongoID b = NilObjectID) books →
  ∀ w, Forall (λ b, (count_book b (coll w) ≤ 1)%nat) books →
  ∃ l,
    prepareData_loop books w =
      (Return (), {| coll := coll w ++ l;
                     oidCounter := oidCounter w + N.of_nat (length l) |}) ∧
    with_MongoID NilObjectID <$> l = missing books (coll w).
Proof.
  induction 1 as [|b rest Hb Hnd IH]; intros Hz w Hc.
  { exists []. cbn. rewrite app_nil_r, N.add_0_r. by destruct w. }
  apply Forall_cons_1 in Hz as [Hzb Hz]. apply Forall_cons_1 in Hc as [Hcb Hc].
  destruct (prepareData_step_cases b w Hzb) as (H0 & H1 & _).
  cbn [prepareData_loop]. unfold missing. cbn [List.filter]. fold (missing rest (coll w)).
  destruct (count_book b (coll w)) as [|[|n]] eqn:Hn; [| |lia].
  - rewrite H0 by done.
    destruct (IH Hz {| coll := coll w ++ [with_MongoID (N.succ (oidCounter w)) b];
                       oidCounter := N.succ (oidCounter w) |})
      as (l & Hloop & Hl).
    { cbn [coll]. eapply Forall_impl.
      - apply Forall_and. split; [exact Hz|exact Hc].
      - cbn beta. intros b' [Hzb' Hcb'].
        destruct (decide (b' = b)) as [->|Hne].
        + rewrite count_book_app, Hn, count_book_singleton.
          by destruct (matches _ _).
        + by rewrite count_book_after_insert. }
    cbn [coll oidCounter] in Hloop, Hl.
    rewrite missing_after_insert in Hl by done.
    exists (with_MongoID (N.succ (oidCounter w)) b :: l).
    rewrite Hloop. split.
    + f_equal. f_equal; [by rewrite <- app_assoc|]. cbn [length]. lia.
    + cbn. rewrite bool_decide_eq_true_2 by done.
      by rewrite without_MongoID, Hl.
  - rewrite H1 by done. destruct (IH Hz w Hc) as (l & Hloop & Hl).
    exists l. split; [done|]. by rewrite bool_decide_eq_false_2.
Qed.

Lemma prepareData_loop_stops books :
  NoDup books → Forall (λ b, MongoID b = NilObjectID) books →
  ∀ w, Exists (λ b, (1 < count_book b (coll w))%nat) books →
  ∃ l,
    prepareData_loop books w =
      (Fatal "more records were found",
       {| coll := coll w ++ l;
          oidCounter := oidCounter w + N.of_nat (length l) |}) ∧
    (length l < length books)%nat.
Proof.
  induction 1 as [|b rest Hb Hnd IH]; intros Hz w Hex.
  { by apply Exists_nil in Hex. }
  apply Forall_cons_1 in Hz as [Hzb Hz].
  destruct (prepareData_step_cases b w Hzb) as (H0 & H1 & Hmany).
  cbn [prepareData_loop].
  destruct (count_book b (coll w)) as [|[|n]] eqn:Hn.
  - apply Exists_cons in Hex as [Hex|Hex]; [lia|].
    rewrite H0 by done.
    destruct (IH Hz {| coll := coll w ++ [with_MongoID (N.succ (oidCounter w)) b];
                       oidCounter := N.succ (oidCounter w) |})
      as (l & Hloop & Hl).
    { cbn [coll]. rewrite Exists_exists in *.
      destruct Hex as (b' & Hin & Hgt).
      exists b'. split; [done|].
      rewrite count_book_after_insert; [done| |done|by intros ->].
      rewrite Forall_forall in Hz. by apply Hz. }
    cbn [coll oidCounter] in Hloop.
    exists (with_MongoID (N.succ (oidCounter w)) b :: l).
    rewrite Hloop. split; [|cbn; lia].
    f_equal. f_equal; [by rewrite <- app_assoc|]. cbn [length]. lia.
  - apply Exists_cons in Hex as [Hex|Hex]; [lia|].
    rewrite H1 by done. destruct (IH Hz w Hex) as (l & Hloop & Hl).
    exists l. split; [done|]. cbn. lia.
  - rewrite Hmany by lia. exists []. cbn.
    rewrite app_nil_r, N.add_0_r. split; [by destruct w|lia].
Qed.

Lemma startData_NoDup : NoDup startData.
Proof. by_compute. Qed.

Lemma many_or_at_most_one (books l : list BookStore) :
  Exists (λ b, (1 < count_book b l)%nat) books ∨
  Forall (λ b, (count_book b l ≤ 1)%nat) books.
Proof.
  induction books as [|b books [IH|IH]].
  - right. constructor.
  - left. by right.
  - destruct (decide (1 < count_book b l)%nat).
    + left. by left.
    + right. constructor; [lia|done].
Qed.

(** X16: the seed routine only ever appends: whatever it returns, the
    collection afterwards is the collection before followed by at most three
    new documents, and when it completes these are, in order and under new
    [_id] values, exactly the fixtures that had no match before. *)
Theorem prepareData_only_appends w :
  ∃ l,
    coll (prepareData w).2 = coll w ++ l ∧
    (length l ≤ 3)%nat ∧
    oidCounter (prepareData w).2 = oidCounter w + N.of_nat (length l) ∧
    ((prepareData w).1 = Return () →
     with_MongoID NilObjectID <$> l = missing startData (coll w)).
Proof.
  unfold prepareData.
  destruct (many_or_at_most_one startData (coll w)) as [Hmany|Hone].
  - destruct (prepareData_loop_stops startData startData_NoDup
                startData_no_MongoID w Hmany) as (l & -> & Hlen).
    exists l. cbn in *. repeat split; [lia|done].
  - destruct (prepareData_loop_completes startData startData_NoDup
                startData_no_MongoID w Hone) as (l & -> & Hl).
    exists l. cbn. repeat split; [|done].
    rewrite <- (length_fmap (with_MongoID NilObjectID)), Hl.
    unfold missing. etrans; [apply List.filter_length_le|done].
Qed.

Lemma prepareData_only_appends_witness :
  ∃ l,
    coll (prepareData edited_world).2 = coll edited_world ++ l ∧
    (length l ≤ 3)%nat ∧
    oidCounter (prepareData edited_world).2
      = oidCounter edited_world + N.of_nat (length l) ∧
    with_MongoID NilObjectID <$> l = missing startData (coll edited_world).
Proof.
  destruct (prepareData_only_appends edited_world)
    as (l & Hcoll & Hlen & Hgen & Hmissing).
  exists l. split; [exact Hcoll|]. split; [exact Hlen|].
  split; [exact Hgen|]. apply Hmissing. reflexivity.
Defined.

(** X17: the seed routine stops with "more records were found" exactly when
    some fixture has more than one match in the collection it is started on;
    in every other case it completes. *)
Theorem prepareData_fatal_iff w :
  ((prepareData w).1 = Fatal "more records were found" ↔
   Exists (λ b, (1 < count_book b (coll w))%nat) startData) ∧
  ((prepareData w).1 = Return () ↔
   Forall (λ b, (count_book b (coll w) ≤ 1)%nat) startData).
Proof.
  unfold prepareData.
  destruct (many_or_at_most_one startData (coll w)) as [Hmany|Hone].
  - destruct (prepareData_loop_stops startData startData_NoDup
                startData_no_MongoID w Hmany) as (l & -> & _).
    cbn. split; [done|]. split; [done|]. intros Hone.
    rewrite Exists_exists in Hmany. destruct Hmany as (b & Hb & Hgt).
    rewrite Forall_forall in Hone. specialize (Hone b Hb). lia.
  - destruct (prepareData_loop_completes startData startData_NoDup
                startData_no_MongoID w Hone) as (l & -> & _).
    cbn. split; [|done]. split; [done|]. intros Hmany.
    rewrite Exists_exists in Hmany. destruct Hmany as (b & Hb & Hgt).
    rewrite Forall_forall in Hone. specialize (Hone b Hb). lia.
Qed.

(** ** Listings *)

(** X18: on a collection that is not empty, [GET /api/books] answers 200
    with an array that has, for each document in the order of the
    collection, one object with exactly the members author, edition, id,
    pages, title and year, holding the stored values. *)
Theorem GET_api_books_array w :
  coll w ≠ [] →
  GET_api_books w =
    Return (c_JSON StatusOK
              (JArray ((λ d, JObject [("author", JString (BookAuthor d));
                                      ("edition", JString (BookEdition d));
                                      ("id", JString (ID d));
                                      ("pages", JString (BookPages d));
                                      ("title", JString (BookName d));
                                      ("year", JString (BookYear d))])
                       <$> coll w))).
Proof.
  intros Hne. rewrite GET_api_books_nonempty by done.
  assert (marshal_map ∘ book_map <$> coll w
          = (λ d, JObject [("author", JString (BookAuthor d));
                           ("edition", JString (BookEdition d));
                           ("id", JString (ID d));
                           ("pages", JString (BookPages d));
                           ("title", JString (BookName d));
                           ("year", JString (BookYear d))]) <$> coll w) as ->;
    [|done].
  apply list_fmap_ext. intros i d _. apply marshal_book_map.
Qed.

Lemma GET_api_books_array_witness :
  GET_api_books three_books_world =
    Return (c_JSON StatusOK
              (JArray ((λ d, JObject [("author", JString (BookAuthor d));
                                      ("edition", JString (BookEdition d));
                                      ("id", JString (ID d));
                                      ("pages", JString (BookPages d));
                                      ("title", JString (BookName d));
                                      ("year", JString (BookYear d))])
                       <$> coll three_books_world))).
Proof. apply (GET_api_books_array three_books_world). discriminate. Defined.

Section DistinctValues.
Variable range_keys : gmap string bool → list string.
Hypothesis range_keys_perm :
  ∀ m : gmap string bool, range_keys m ≡ₚ (map_to_list m).*1.

Lemma unique_years_lookup w books y :
  elems_of books = book_map <$> coll w →
  is_Some (unique_values "year" books !! y) ↔
  ∃ d, d ∈ coll w ∧ BookYear d = y.
Proof.
  intros Hbooks. unfold unique_values.
  rewrite unique_values_fold, Hbooks, lookup_empty. split.
  - intros [[? [=]]|(book & (d & -> & Hd)%list_elem_of_fmap & Ha)].
    exists d. split; [done|]. by injection Ha.
  - intros (d & Hd & <-). right. exists (book_map d).
    split; [|done]. apply list_elem_of_fmap. by exists d.
Qed.

Lemma singleton_maps_elems name keys :
  elems_of (singleton_maps name keys)
  = (λ k, {[name := JString k]}) <$> keys.
Proof. apply elems_of_foldl_append. Qed.

Lemma singleton_maps_len name keys :
  len (singleton_maps name keys) = length keys.
Proof.
  unfold singleton_maps. rewrite foldl_append_nil.
  destruct keys; [done|]. cbn. by rewrite length_fmap.
Qed.

(** X19: the year listing returns one entry [{"BookYear": y}] for each year
    string [y] that some stored book carries, none twice and no other, in
    the order the map iteration chooses. *)
Theorem findAllYears_distinct w :
  ∃ ret years,
    findAllYears range_keys w = Return ret ∧
    elems_of ret = (λ y, {["BookYear" := JString y]}) <$> years ∧
    NoDup years ∧
    (∀ y, y ∈ years ↔ ∃ d, d ∈ coll w ∧ BookYear d = y).
Proof.
  destruct (findAllBooks_elems w) as (books & Hfind & Hbooks).
  unfold findAllYears. rewrite Hfind.
  exists (singleton_maps "BookYear"
            (range_keys (unique_values "year" books))),
         (range_keys (unique_values "year" books)).
  split; [done|]. split; [apply singleton_maps_elems|].
  split; [by apply range_keys_NoDup|].
  intros y. rewrite elem_of_range_keys by done.
  by apply unique_years_lookup.
Qed.

Lemma range_keys_length_le {A : Type} (f : BookStore → A) (l : list BookStore)
  (ks : list A) :
  NoDup ks → (∀ k, k ∈ ks ↔ ∃ d, d ∈ l ∧ f d = k) →
  (length ks ≤ length l)%nat ∧ (l = [] → ks = []) ∧
  (l ≠ [] → (0 < length ks)%nat).
Proof.
  intros Hnd Hmem. split; [|split].
  - rewrite <- (length_fmap f l). apply submseteq_length.
    apply NoDup_submseteq; [done|]. intros k (d & Hd & <-)%Hmem.
    apply list_elem_of_fmap. by exists d.
  - intros ->. destruct ks as [|k ks]; [done|].
    destruct (proj1 (Hmem k)) as (d & Hd & _); [by left|].
    by apply elem_of_nil in Hd.
  - intros Hne. destruct l as [|d l]; [done|].
    destruct ks as [|k ks]; [|cbn; lia].
    assert (f d ∈ @nil A) as Hin by (apply Hmem; exists d; split; [by left|done]).
    by apply elem_of_nil in Hin.
Qed.

(** X20: the author and the year listing never have more entries than the
    collection has books; on an empty collection both return a nil slice,
    and on any other collection both have at least one entry. *)
Theorem listings_size w :
  ∃ authors years,
    findAllAuthors range_keys w = Return authors ∧
    findAllYears range_keys w = Return years ∧
    (len authors ≤ length (coll w))%nat ∧
    (len years ≤ length (coll w))%nat ∧
    (coll w = [] → authors = nil_slice ∧ years = nil_slice) ∧
    (coll w ≠ [] → (0 < len authors)%nat ∧ (0 < len years)%nat).
Proof.
  destruct (findAllBooks_elems w) as (books & Hfind & Hbooks).
  unfold findAllAuthors, findAllYears. rewrite Hfind.
  set (as_ := range_keys (unique_values "author" books)).
  set (ys := range_keys (unique_values "year" books)).
  destruct (range_keys_length_le BookAuthor (coll w) as_)
    as (Hale & Hanil & Hapos).
  { by apply range_keys_NoDup. }
  { intros a. unfold as_. rewrite elem_of_range_keys by done.
    by apply unique_authors_lookup. }
  destruct (range_keys_length_le BookYear (coll w) ys)
    as (Hyle & Hynil & Hypos).
  { by apply range_keys_NoDup. }
  { intros y. unfold ys. rewrite elem_of_range_keys by done.
    by apply unique_years_lookup. }
  do 2 eexists. split; [done|]. split; [done|].
  rewrite !singleton_maps_len. split; [done|]. split; [done|]. split.
  - intros Hnil. by rewrite (Hanil Hnil), (Hynil Hnil).
  - intros Hne. auto.
Qed.
End DistinctValues.

Lemma findAllYears_distinct_witness :
  ∃ ret years,
    findAllYears (λ m, (map_to_list m).*1) three_books_world = Return ret ∧
    elems_of ret = (λ y, {["BookYear" := JString y]}) <$> years ∧
    NoDup years ∧
    (∀ y, y ∈ years ↔ ∃ d, d ∈ coll three_books_world ∧ BookYear d = y).
Proof.
  exact (findAllYears_distinct (λ m, (map_to_list m).*1)
           (λ m, reflexivity _) three_books_world).
Defined.

Lemma listings_size_witness :
  ∃ authors years,
    findAllAuthors (λ m, (map_to_list m).*1) three_books_world
      = Return authors ∧
    findAllYears (λ m, (map_to_list m).*1) three_books_world = Return years ∧
    (len authors ≤ 3)%nat ∧ (len years ≤ 3)%nat ∧
    (0 < len authors)%nat ∧ (0 < len years)%nat.
Proof.
  destruct (listings_size (λ m, (map_to_list m).*1)
              (λ m, reflexivity _) three_books_world)
    as (authors & years & Ha & Hy & Hale & Hyle & _ & Hpos).
  exists authors, years. split; [exact Ha|]. split; [exact Hy|].
  split; [exact Hale|]. split; [exact Hyle|]. apply Hpos. discriminate.
Defined.

(** ** The collection and the start of the service *)

Lemma elem_of_collection_names (m : gmap string (list BookStore)) name :
  name ∈ (map_to_list m).*1 ↔ is_Some (m !! name).
Proof.
  rewrite list_elem_of_fmap. split.
  - intros ([n c] & -> & Hnc%elem_of_map_to_list). by exists c.
  - intros [c Hc]. exists (name, c). split; [done|].
    by apply elem_of_map_to_list.
Qed.

Lemma prepareDatabase_present name s :
  is_Some (collections s !! name) →
  prepareDatabase name s = (Return (Ok name), s).
Proof.
  intros Hin. unfold prepareDatabase, ListCollectionNames.
  by rewrite bool_decide_eq_true_2 by (by apply elem_of_collection_names).
Qed.

Lemma prepareDatabase_absent name s :
  collections s !! name = None →
  prepareDatabase name s =
    (Return (Ok name),
     {| collections := <[name := []]> (collections s);
        generator := generator s |}).
Proof.
  intros Hout. unfold prepareDatabase, ListCollectionNames.
  rewrite bool_decide_eq_false_2.
  - unfold RunCommand_create. by rewrite Hout.
  - rewrite elem_of_collection_names, Hout. by intros [? [=]].
Qed.

Lemma prepareDatabase_effect name s :
  ∃ s',
    prepareDatabase name s = (Return (Ok name), s') ∧
    collections s' !! name = Some (default [] (collections s !! name)) ∧
    (∀ n, n ≠ name → collections s' !! n = collections s !! n) ∧
    generator s' = generator s.
Proof.
  destruct (collections s !! name) as [c|] eqn:Hc.
  - exists s. rewrite prepareDatabase_present by (by rewrite Hc).
    by rewrite Hc.
  - eexists. rewrite prepareDatabase_absent by done.
    split; [done|]. cbn [collections generator].
    split; [by rewrite lookup_insert_eq|].
    split; [by intros n Hn; rewrite lookup_insert_ne|done].
Qed.

(** X21: [prepareDatabase] returns the handle of the named collection, which
    exists afterwards; a collection that was there keeps its documents, every
    other collection is as before, and a second call changes nothing. *)
Theorem prepareDatabase_ensures name s :
  ∃ s',
    prepareDatabase name s = (Return (Ok name), s') ∧
    collections s' !! name = Some (default [] (collections s !! name)) ∧
    (∀ n, n ≠ name → collections s' !! n = collections s !! n) ∧
    generator s' = generator s ∧
    prepareDatabase name s' = (Return (Ok name), s').
Proof.
  destruct (collections s !! name) as [c|] eqn:Hc.
  - exists s. rewrite prepareDatabase_present by (by rewrite Hc).
    by rewrite Hc.
  - eexists. rewrite prepareDatabase_absent by done.
    split; [done|]. cbn [collections generator].
    split; [by rewrite lookup_insert_eq|].
    split; [by intros n Hn; rewrite lookup_insert_ne|]. split; [done|].
    apply prepareDatabase_present. cbn [collections].
    by rewrite lookup_insert_eq.
Qed.

Lemma prepareData_again w w' :
  prepareData w = (Return (), w') → prepareData w' = (Return (), w').
Proof.
  intros Hrun. apply prepareData_loop_seeded; [apply startData_no_MongoID|].
  eapply prepareData_loop_establishes; [|exact Hrun].
  apply startData_no_MongoID.
Qed.

(** X22: when the start-up (ensure the collection, then seed it) completes,
    a second start-up completes too and changes nothing; collections other
    than [information] are never touched, and [information] keeps the
    documents it had, followed by the fixtures that were added. *)
Theorem startup_idempotent s s' :
  startup s = (Return (), s') →
  startup s' = (Return (), s') ∧
  (∀ n, n ≠ "information" → collections s' !! n = collections s !! n) ∧
  ∃ l, collections s' !! "information"
       = Some (default [] (collections s !! "information") ++ l).
Proof.
  unfold startup.
  destruct (prepareDatabase_effect "information" s)
    as (s1 & -> & Hinfo & Hother & Hgen).
  unfold on_collection. rewrite Hinfo.
  change (default [] (Some (default [] (collections s !! "information"))))
    with (default [] (collections s !! "information")).
  set (w := {| coll := default [] (collections s !! "information");
               oidCounter := generator s1 |}).
  destruct (prepareData w) as [o w'] eqn:Hrun.
  intros [= -> <-]. cbn [collections generator].
  pose proof (prepareData_again _ _ Hrun) as Hagain.
  split; [|split].
  - rewrite prepareDatabase_present
      by (cbn; rewrite lookup_insert_eq; by eexists).
    cbn [collections generator]. rewrite lookup_insert_eq.
    change (default [] (Some (coll w'))) with (coll w').
    replace {| coll := coll w'; oidCounter := oidCounter w' |} with w'
      by (by destruct w').
    rewrite Hagain. by rewrite insert_insert_eq.
  - intros n Hn. rewrite lookup_insert_ne by done. by apply Hother.
  - rewrite lookup_insert_eq.
    destruct (prepareData_loop_completes startData startData_NoDup
                startData_no_MongoID w) as (l & Hl & _).
    { destruct (many_or_at_most_one startData (coll w)) as [Hmany|Hone];
        [|done].
      destruct (prepareData_loop_stops startData startData_NoDup
                  startData_no_MongoID w Hmany) as (l & Hstop & _).
      unfold prepareData in Hrun. rewrite Hstop in Hrun. done. }
    unfold prepareData in Hrun. rewrite Hl in Hrun.
    injection Hrun as <-. by exists l.
Qed.

Lemma startup_idempotent_witness :
  startup (startup other_server).2 = (Return (), (startup other_server).2) ∧
  (∀ n, n ≠ "information" →
        collections (startup other_server).2 !! n
        = collections other_server !! n) ∧
  ∃ l, collections (startup other_server).2 !! "information"
       = Some (default [] (collections other_server !! "information") ++ l).
Proof.
  apply (startup_idempotent other_server (startup other_server).2).
  reflexivity.
Defined.
